(** * Exam-attempt scoring protocol of smart_exam

    A shallow embedding of [server/storage.ts] (the in-memory [MemStorage])
    and of the attempt, answer and grading-request routes of
    [server/routes.ts], followed by the properties of the scoring protocol.

    Conventions of the embedding:
    - a JavaScript [Map<number, V>] is an insertion-ordered association
      list ([JsMap]); [Array.from(m.values())] is the list of its values in
      that order, so [filter] and [find] see the records as the code does;
    - integers ([id]s, points, scores) are [Z]; a [Date] is its
      [getTime()] value in milliseconds, a [Z]: a reading of the clock,
      far below [2^53], so that the arithmetic on times is exact;
    - the points and scores are JavaScript numbers, that is doubles: an
      integer of at most 53 bits is held as it is, and [+] rounds the exact
      sum to 53 significant bits, a tie going to the even neighbour, and
      gives [Infinity] when the rounded sum reaches [2^1024] ([js_add]).
      [Infinity] and [-Infinity], which only the sums can be, are written
      [2^1024] and [-2^1024].  The numbers of a request body are taken to
      be finite integers that a double holds (JSON has no [Infinity]), so
      [NaN] does not arise; numbers that are not integers are outside the
      model;
    - a nullable column is an [option]; [null] is [None];
    - objects are never mutated in place by the storage layer (every update
      builds a fresh object with the spread operator), so records are plain
      values;
    - a route handler is a function from the request's inputs and the
      storage to a response and the new storage.  [req.user] is an input of
      the handler (it is set by the middleware before the handler runs).
      Request bodies are taken already well typed, so the [zod] parse of a
      body does not fail; the parse of the attempt data, which the start
      route computes itself, is modelled ([insertExamAttemptSchema]). *)

From Stdlib Require Import ZArith List String Ascii Bool Lia.
From Stdlib Require Import Permutation Sorted.
Import ListNotations.

Local Open Scope string_scope.
Local Open Scope list_scope.
Local Open Scope Z_scope.

(** ** JavaScript [Map] with integer keys *)

Module JsMap.

Section Ops.
Context {V : Type}.

Definition t := list (Z * V).

Definition empty : t := [].

(** [m.get(k)] *)
Fixpoint get (k : Z) (m : t) : option V :=
  match m with
  | [] => None
  | (k', v) :: m' => if k =? k' then Some v else get k m'
  end.

(** [m.set(k, v)]: an existing key keeps its position, a new key goes
    to the end. *)
Fixpoint set (k : Z) (v : V) (m : t) : t :=
  match m with
  | [] => [(k, v)]
  | (k', v') :: m' =>
      if k =? k' then (k, v) :: m' else (k', v') :: set k v m'
  end.

(** [m.delete(k)] *)
Fixpoint remove (k : Z) (m : t) : t :=
  match m with
  | [] => []
  | (k', v') :: m' => if k =? k' then m' else (k', v') :: remove k m'
  end.

Definition has (k : Z) (m : t) : bool :=
  match get k m with Some _ => true | None => false end.

(** [Array.from(m.values())] *)
Definition values (m : t) : list V := map snd m.

Definition keys (m : t) : list Z := map fst m.
End Ops.

Arguments t : clear implicits.

End JsMap.

(** ** Data model ([shared/schema.ts]) *)

(** A [json] column as far as the routes look into it: [null], a string, or
    an array of strings (the essay form of [correctAnswer]). *)
Inductive Json :=
| JNull
| JString (s : string)
| JArray (l : list string).

(** [v || null] on a [json] value: the empty string is falsy. *)
Definition json_or_null (v : Json) : Json :=
  match v with
  | JString s => if (s =? "")%string then JNull else v
  | _ => v
  end.

(** [s === v] for a string [s] and a [json] value [v]. *)
Definition strict_eq_string (s : string) (v : Json) : bool :=
  match v with
  | JString s' => (s =? s')%string
  | _ => false
  end.

(** [n || 0] on an optional integer. *)
Definition or_zero (n : option Z) : Z :=
  match n with
  | Some x => x
  | None => 0
  end.

Module User.
Record t := mk {
  id : Z; username : string; password : string; email : string;
  name : string; role : string; createdAt : Z }.
End User.

Module Exam.
Record t := mk {
  id : Z; title : string; subject : string; description : option string;
  duration : Z; status : string; createdAt : Z; userId : Z;
  fileUrl : option string; shareCode : option string; isPublic : bool }.
End Exam.

Module Question.
Record t := mk {
  id : Z; examId : Z; type : string; text : string; points : Z;
  order : Z; options : Json; correctAnswer : Json }.
End Question.

Module ExamAttempt.
Record t := mk {
  id : Z; examId : Z; userId : Z; startedAt : Z;
  completedAt : option Z; score : option Z; maxScore : Z;
  timeSpent : option Z }.
End ExamAttempt.

Module Answer.
Record t := mk {
  id : Z; attemptId : Z; questionId : Z; answer : string;
  isCorrect : option bool; score : option Z; manuallyGraded : bool }.
End Answer.

Module GradingRequest.
Record t := mk {
  id : Z; answerId : Z; requestedAt : Z; status : string;
  comment : option string; resolvedAt : option Z }.
End GradingRequest.

(** The insert types: the columns left after [omit]. *)

Module InsertUser.
Record t := mk {
  username : string; password : string; email : string; name : string;
  role : option string }.
End InsertUser.

Module InsertExam.
Record t := mk {
  title : string; subject : string; description : option string;
  duration : Z; status : option string; userId : Z;
  fileUrl : option string; isPublic : option bool }.
End InsertExam.

Module InsertQuestion.
Record t := mk {
  examId : Z; type : string; text : string; points : option Z;
  order : option Z; options : Json; correctAnswer : Json }.
End InsertQuestion.

Module InsertExamAttempt.
Record t := mk { examId : Z; userId : Z; maxScore : Z }.
End InsertExamAttempt.

Module InsertAnswer.
Record t := mk { attemptId : Z; questionId : Z; answer : string }.
End InsertAnswer.

Module InsertGradingRequest.
Record t := mk { answerId : Z; comment : option string }.
End InsertGradingRequest.

(** [Partial<T>]: every field optional; an absent field keeps the old
    value under [{ ...old, ...partial }]. *)

Definition over {A : Type} (new : option A) (old : A) : A :=
  match new with
  | Some x => x
  | None => old
  end.

Module PartialExam.
Record t := mk {
  id : option Z; title : option string; subject : option string;
  description : option (option string); duration : option Z;
  status : option string; createdAt : option Z; userId : option Z;
  fileUrl : option (option string); shareCode : option (option string);
  isPublic : option bool }.

Definition apply (p : t) (e : Exam.t) : Exam.t :=
  Exam.mk (over (id p) (Exam.id e)) (over (title p) (Exam.title e))
    (over (subject p) (Exam.subject e))
    (over (description p) (Exam.description e))
    (over (duration p) (Exam.duration e)) (over (status p) (Exam.status e))
    (over (createdAt p) (Exam.createdAt e)) (over (userId p) (Exam.userId e))
    (over (fileUrl p) (Exam.fileUrl e))
    (over (shareCode p) (Exam.shareCode e))
    (over (isPublic p) (Exam.isPublic e)).
End PartialExam.

Module PartialQuestion.
Record t := mk {
  id : option Z; examId : option Z; type : option string;
  text : option string; points : option Z; order : option Z;
  options : option Json; correctAnswer : option Json }.

Definition apply (p : t) (q : Question.t) : Question.t :=
  Question.mk (over (id p) (Question.id q))
    (over (examId p) (Question.examId q)) (over (type p) (Question.type q))
    (over (text p) (Question.text q)) (over (points p) (Question.points q))
    (over (order p) (Question.order q))
    (over (options p) (Question.options q))
    (over (correctAnswer p) (Question.correctAnswer q)).
End PartialQuestion.

(** Of [Partial<ExamAttempt>], [Partial<Answer>] and
    [Partial<GradingRequest>] the routes only ever pass the fields below;
    the other fields are always absent and keep their value. *)

Module PartialExamAttempt.
Record t := mk {
  completedAt : option (option Z); timeSpent : option (option Z);
  score : option (option Z) }.

Definition apply (p : t) (a : ExamAttempt.t) : ExamAttempt.t :=
  ExamAttempt.mk (ExamAttempt.id a) (ExamAttempt.examId a)
    (ExamAttempt.userId a) (ExamAttempt.startedAt a)
    (over (completedAt p) (ExamAttempt.completedAt a))
    (over (score p) (ExamAttempt.score a))
    (ExamAttempt.maxScore a)
    (over (timeSpent p) (ExamAttempt.timeSpent a)).
End PartialExamAttempt.

Module PartialAnswer.
Record t := mk {
  answer : option string; isCorrect : option (option bool);
  score : option (option Z); manuallyGraded : option bool }.

Definition apply (p : t) (a : Answer.t) : Answer.t :=
  Answer.mk (Answer.id a) (Answer.attemptId a) (Answer.questionId a)
    (over (answer p) (Answer.answer a))
    (over (isCorrect p) (Answer.isCorrect a))
    (over (score p) (Answer.score a))
    (over (manuallyGraded p) (Answer.manuallyGraded a)).
End PartialAnswer.

Module PartialGradingRequest.
Record t := mk {
  status : option string; comment : option (option string);
  resolvedAt : option (option Z) }.

Definition apply (p : t) (r : GradingRequest.t) : GradingRequest.t :=
  GradingRequest.mk (GradingRequest.id r) (GradingRequest.answerId r)
    (GradingRequest.requestedAt r)
    (over (status p) (GradingRequest.status r))
    (over (comment p) (GradingRequest.comment r))
    (over (resolvedAt p) (GradingRequest.resolvedAt r)).
End PartialGradingRequest.

(** ** The in-memory store ([MemStorage], [server/storage.ts]) *)

Record MemStorage := mkStorage {
  users : JsMap.t User.t;
  exams : JsMap.t Exam.t;
  questions : JsMap.t Question.t;
  examAttempts : JsMap.t ExamAttempt.t;
  answers : JsMap.t Answer.t;
  gradingRequests : JsMap.t GradingRequest.t;
  userIdCounter : Z;
  examIdCounter : Z;
  questionIdCounter : Z;
  attemptIdCounter : Z;
  answerIdCounter : Z;
  requestIdCounter : Z }.

Definition with_exams (m : JsMap.t Exam.t) (s : MemStorage) : MemStorage :=
  mkStorage (users s) m (questions s) (examAttempts s) (answers s)
    (gradingRequests s) (userIdCounter s) (examIdCounter s)
    (questionIdCounter s) (attemptIdCounter s) (answerIdCounter s)
    (requestIdCounter s).

Definition with_questions (m : JsMap.t Question.t) (s : MemStorage)
  : MemStorage :=
  mkStorage (users s) (exams s) m (examAttempts s) (answers s)
    (gradingRequests s) (userIdCounter s) (examIdCounter s)
    (questionIdCounter s) (attemptIdCounter s) (answerIdCounter s)
    (requestIdCounter s).

Definition with_examAttempts (m : JsMap.t ExamAttempt.t) (s : MemStorage)
  : MemStorage :=
  mkStorage (users s) (exams s) (questions s) m (answers s)
    (gradingRequests s) (userIdCounter s) (examIdCounter s)
    (questionIdCounter s) (attemptIdCounter s) (answerIdCounter s)
    (requestIdCounter s).

Definition with_answers (m : JsMap.t Answer.t) (s : MemStorage)
  : MemStorage :=
  mkStorage (users s) (exams s) (questions s) (examAttempts s) m
    (gradingRequests s) (userIdCounter s) (examIdCounter s)
    (questionIdCounter s) (attemptIdCounter s) (answerIdCounter s)
    (requestIdCounter s).

Definition with_gradingRequests (m : JsMap.t GradingRequest.t)
  (s : MemStorage) : MemStorage :=
  mkStorage (users s) (exams s) (questions s) (examAttempts s) (answers s)
    m (userIdCounter s) (examIdCounter s)
    (questionIdCounter s) (attemptIdCounter s) (answerIdCounter s)
    (requestIdCounter s).

(** The default user made by the constructor; [now] is the clock. *)
Definition adminUser (now : Z) : User.t :=
  User.mk 1 "admin" "adminpassword" "admin@example.com" "Admin User"
    "teacher" now.

(** [new MemStorage()] *)
Definition newMemStorage (now : Z) : MemStorage :=
  mkStorage (JsMap.set 1 (adminUser now) JsMap.empty) JsMap.empty
    JsMap.empty JsMap.empty JsMap.empty JsMap.empty 2 1 1 1 1 1.

(** *** Users *)

Definition getUser (id : Z) (s : MemStorage) : option User.t :=
  JsMap.get id (users s).

Definition getUserByUsername (username : string) (s : MemStorage)
  : option User.t :=
  find (fun user => (User.username user =? username)%string)
    (JsMap.values (users s)).

Definition getUserByEmail (email : string) (s : MemStorage)
  : option User.t :=
  find (fun user => (User.email user =? email)%string)
    (JsMap.values (users s)).

Definition createUser (now : Z) (d : InsertUser.t) (s : MemStorage)
  : User.t * MemStorage :=
  let id := userIdCounter s in
  let user :=
    User.mk id (InsertUser.username d) (InsertUser.password d)
      (InsertUser.email d) (InsertUser.name d)
      (match InsertUser.role d with
       | Some x => if (x =? "")%string then "student" else x
       | None => "student"
       end)
      now in
  (user,
   mkStorage (JsMap.set id user (users s)) (exams s) (questions s)
     (examAttempts s) (answers s) (gradingRequests s) (id + 1)
     (examIdCounter s) (questionIdCounter s) (attemptIdCounter s)
     (answerIdCounter s) (requestIdCounter s)).

Definition getUsers (s : MemStorage) : list User.t := JsMap.values (users s).

(** *** Exams *)

Definition createExam (now : Z) (code : string) (d : InsertExam.t)
  (s : MemStorage) : Exam.t * MemStorage :=
  let id := examIdCounter s in
  let exam :=
    Exam.mk id (InsertExam.title d) (InsertExam.subject d)
      (match InsertExam.description d with
       | Some x => if (x =? "")%string then None else Some x
       | None => None
       end)
      (InsertExam.duration d)
      (match InsertExam.status d with
       | Some x => if (x =? "")%string then "draft" else x
       | None => "draft"
       end)
      now (InsertExam.userId d)
      (match InsertExam.fileUrl d with
       | Some x => if (x =? "")%string then None else Some x
       | None => None
       end)
      (Some code)
      (match InsertExam.isPublic d with Some b => b | None => false end) in
  (exam,
   mkStorage (users s) (JsMap.set id exam (exams s)) (questions s)
     (examAttempts s) (answers s) (gradingRequests s) (userIdCounter s)
     (id + 1) (questionIdCounter s) (attemptIdCounter s)
     (answerIdCounter s) (requestIdCounter s)).

Definition getExam (id : Z) (s : MemStorage) : option Exam.t :=
  JsMap.get id (exams s).

Definition updateExam (id : Z) (d : PartialExam.t) (s : MemStorage)
  : option Exam.t * MemStorage :=
  match JsMap.get id (exams s) with
  | None => (None, s)
  | Some exam =>
      let updatedExam := PartialExam.apply d exam in
      (Some updatedExam, with_exams (JsMap.set id updatedExam (exams s)) s)
  end.

Definition deleteExam (id : Z) (s : MemStorage) : bool * MemStorage :=
  (JsMap.has id (exams s), with_exams (JsMap.remove id (exams s)) s).

(** [generateShareCode]: six characters of the alphabet, each at the index
    [Math.floor(Math.random() * characters.length)]; [draw i] is that index
    in round [i] of the loop.  [charAt] gives the empty string out of
    range. *)
Definition characters : string := "ABCDEFGHJKLMNPQRSTUVWXYZ23456789".

Definition charAt (i : nat) (str : string) : string :=
  match String.get i str with
  | Some c => String c EmptyString
  | None => ""
  end.

Definition generateShareCode (draw : nat -> nat) : string :=
  fold_left (fun result i => (result ++ charAt (draw i) characters)%string)
    (seq 0 6) "".

Definition getExamByShareCode (shareCode : string) (s : MemStorage)
  : option Exam.t :=
  find (fun exam =>
          match Exam.shareCode exam with
          | Some c => (c =? shareCode)%string
          | None => false
          end)
    (JsMap.values (exams s)).

Definition getExamsByUser (userId : Z) (s : MemStorage) : list Exam.t :=
  filter (fun exam => Exam.userId exam =? userId) (JsMap.values (exams s)).

Definition getAllExams (s : MemStorage) : list Exam.t :=
  JsMap.values (exams s).

(** *** Questions *)

Definition createQuestion (d : InsertQuestion.t) (s : MemStorage)
  : Question.t * MemStorage :=
  let id := questionIdCounter s in
  let question :=
    Question.mk id (InsertQuestion.examId d) (InsertQuestion.type d)
      (InsertQuestion.text d) (or_zero (InsertQuestion.points d))
      (or_zero (InsertQuestion.order d))
      (json_or_null (InsertQuestion.options d))
      (json_or_null (InsertQuestion.correctAnswer d)) in
  (question,
   mkStorage (users s) (exams s) (JsMap.set id question (questions s))
     (examAttempts s) (answers s) (gradingRequests s) (userIdCounter s)
     (examIdCounter s) (id + 1) (attemptIdCounter s)
     (answerIdCounter s) (requestIdCounter s)).

Definition getQuestion (id : Z) (s : MemStorage) : option Question.t :=
  JsMap.get id (questions s).

Definition updateQuestion (id : Z) (d : PartialQuestion.t) (s : MemStorage)
  : option Question.t * MemStorage :=
  match JsMap.get id (questions s) with
  | None => (None, s)
  | Some question =>
      let updatedQuestion := PartialQuestion.apply d question in
      (Some updatedQuestion,
       with_questions (JsMap.set id updatedQuestion (questions s)) s)
  end.

Definition deleteQuestion (id : Z) (s : MemStorage) : bool * MemStorage :=
  (JsMap.has id (questions s),
   with_questions (JsMap.remove id (questions s)) s).

(** [Array.prototype.sort] with the comparator [a.order - b.order]: a
    stable sort by [order], here by insertion. *)
Fixpoint insert_by_order (q : Question.t) (l : list Question.t)
  : list Question.t :=
  match l with
  | [] => [q]
  | q' :: l' =>
      if Question.order q <=? Question.order q'
      then q :: l
      else q' :: insert_by_order q l'
  end.

Definition sort_by_order (l : list Question.t) : list Question.t :=
  fold_right insert_by_order [] l.

Definition getQuestionsByExam (examId : Z) (s : MemStorage)
  : list Question.t :=
  sort_by_order
    (filter (fun question => Question.examId question =? examId)
       (JsMap.values (questions s))).

(** *** Exam attempts *)

Definition createExamAttempt (now : Z) (d : InsertExamAttempt.t)
  (s : MemStorage) : ExamAttempt.t * MemStorage :=
  let id := attemptIdCounter s in
  let attempt :=
    ExamAttempt.mk id (InsertExamAttempt.examId d)
      (InsertExamAttempt.userId d) now None None
      (InsertExamAttempt.maxScore d) None in
  (attempt,
   mkStorage (users s) (exams s) (questions s)
     (JsMap.set id attempt (examAttempts s)) (answers s)
     (gradingRequests s) (userIdCounter s) (examIdCounter s)
     (questionIdCounter s) (id + 1) (answerIdCounter s)
     (requestIdCounter s)).

Definition getExamAttempt (id : Z) (s : MemStorage) : option ExamAttempt.t :=
  JsMap.get id (examAttempts s).

Definition updateExamAttempt (id : Z) (d : PartialExamAttempt.t)
  (s : MemStorage) : option ExamAttempt.t * MemStorage :=
  match JsMap.get id (examAttempts s) with
  | None => (None, s)
  | Some attempt =>
      let updatedAttempt := PartialExamAttempt.apply d attempt in
      (Some updatedAttempt,
       with_examAttempts (JsMap.set id updatedAttempt (examAttempts s)) s)
  end.

Definition getExamAttemptsByUser (userId : Z) (s : MemStorage)
  : list ExamAttempt.t :=
  filter (fun attempt => ExamAttempt.userId attempt =? userId)
    (JsMap.values (examAttempts s)).

Definition getExamAttemptsByExam (examId : Z) (s : MemStorage)
  : list ExamAttempt.t :=
  filter (fun attempt => ExamAttempt.examId attempt =? examId)
    (JsMap.values (examAttempts s)).

(** *** Answers *)

Definition createAnswer (d : InsertAnswer.t) (s : MemStorage)
  : Answer.t * MemStorage :=
  let id := answerIdCounter s in
  let answer :=
    Answer.mk id (InsertAnswer.attemptId d) (InsertAnswer.questionId d)
      (InsertAnswer.answer d) None None false in
  (answer,
   mkStorage (users s) (exams s) (questions s) (examAttempts s)
     (JsMap.set id answer (answers s)) (gradingRequests s)
     (userIdCounter s) (examIdCounter s) (questionIdCounter s)
     (attemptIdCounter s) (id + 1) (requestIdCounter s)).

Definition getAnswer (id : Z) (s : MemStorage) : option Answer.t :=
  JsMap.get id (answers s).

Definition updateAnswer (id : Z) (d : PartialAnswer.t) (s : MemStorage)
  : option Answer.t * MemStorage :=
  match JsMap.get id (answers s) with
  | None => (None, s)
  | Some answer =>
      let updatedAnswer := PartialAnswer.apply d answer in
      (Some updatedAnswer,
       with_answers (JsMap.set id updatedAnswer (answers s)) s)
  end.

Definition getAnswersByAttempt (attemptId : Z) (s : MemStorage)
  : list Answer.t :=
  filter (fun answer => Answer.attemptId answer =? attemptId)
    (JsMap.values (answers s)).

(** *** Grading requests *)

Definition createGradingRequest (now : Z) (d : InsertGradingRequest.t)
  (s : MemStorage) : GradingRequest.t * MemStorage :=
  let id := requestIdCounter s in
  let request :=
    GradingRequest.mk id (InsertGradingRequest.answerId d) now "pending"
      (match InsertGradingRequest.comment d with
       | Some x => if (x =? "")%string then None else Some x
       | None => None
       end)
      None in
  (request,
   mkStorage (users s) (exams s) (questions s) (examAttempts s)
     (answers s) (JsMap.set id request (gradingRequests s))
     (userIdCounter s) (examIdCounter s) (questionIdCounter s)
     (attemptIdCounter s) (answerIdCounter s) (id + 1)).

Definition getGradingRequest (id : Z) (s : MemStorage)
  : option GradingRequest.t :=
  JsMap.get id (gradingRequests s).

Definition updateGradingRequest (id : Z) (d : PartialGradingRequest.t)
  (s : MemStorage) : option GradingRequest.t * MemStorage :=
  match JsMap.get id (gradingRequests s) with
  | None => (None, s)
  | Some request =>
      let updatedRequest := PartialGradingRequest.apply d request in
      (Some updatedRequest,
       with_gradingRequests
         (JsMap.set id updatedRequest (gradingRequests s)) s)
  end.

Definition getPendingGradingRequests (s : MemStorage)
  : list GradingRequest.t :=
  filter (fun request => (GradingRequest.status request =? "pending")%string)
    (JsMap.values (gradingRequests s)).

(** [getGradingRequestsByUser]: the requests on answers of the user's
    attempts; [ids.includes(x)] is a search by equality. *)
Definition getGradingRequestsByUser (userId : Z) (s : MemStorage)
  : list GradingRequest.t :=
  let userAnswers :=
    filter (fun answer =>
              match JsMap.get (Answer.attemptId answer) (examAttempts s) with
              | Some attempt => ExamAttempt.userId attempt =? userId
              | None => false
              end)
      (JsMap.values (answers s)) in
  let userAnswerIds := map Answer.id userAnswers in
  filter (fun request =>
            existsb (Z.eqb (GradingRequest.answerId request)) userAnswerIds)
    (JsMap.values (gradingRequests s)).

(** ** The routes ([server/routes.ts]) *)

(** What a handler sends: [res.status(c).json(body)] with a body of the
    route's type, or [res.status(c).json({ message })]. *)
Inductive Response (A : Type) :=
| Sent (status : Z) (body : A)
| Failed (status : Z) (message : string).

Arguments Sent {A} status body.
Arguments Failed {A} status message.

(** [Infinity], as the model writes it. *)
Definition infinity : Z := 2 ^ 1024.

(** The double nearest to an integer: below [2^53] in absolute value the
    integer itself; from there on the 53 leading bits, rounded to nearest
    with a tie going to the even significand, and [Infinity] with the sign
    of the integer when that reaches [2^1024]. *)
Definition to_double (n : Z) : Z :=
  let a := Z.abs n in
  if a <? 2 ^ 53 then n
  else
    let e := Z.log2 a - 52 in
    let q := a / 2 ^ e in
    let r := a mod 2 ^ e in
    let half := 2 ^ (e - 1) in
    let q' :=
      if r <? half then q
      else if half <? r then q + 1
      else if Z.even q then q else q + 1 in
    if infinity <=? q' * 2 ^ e then Z.sgn n * infinity
    else Z.sgn n * (q' * 2 ^ e).

(** [a + b] on numbers: an infinite operand is the result (the other one
    is finite, or the same), and two finite ones give the double nearest
    to their sum. *)
Definition js_add (a b : Z) : Z :=
  if Z.abs a =? infinity then a
  else if Z.abs b =? infinity then b
  else to_double (a + b).

(** [reduce((total, x) => total + f(x), 0)] *)
Definition sum_by {A : Type} (f : A -> Z) (l : list A) : Z :=
  fold_left (fun total x => js_add total (f x)) l 0.

(** The range of an [integer] column, which the insert schemas made from
    the tables enforce on a number. *)
Definition int4 (n : Z) : bool :=
  (-2147483648 <=? n) && (n <=? 2147483647).

(** Whether [insertExamAttemptSchema.parse] takes the data: its three
    columns are integers. *)
Definition insertExamAttemptSchema (d : InsertExamAttempt.t) : bool :=
  int4 (InsertExamAttempt.examId d) && int4 (InsertExamAttempt.userId d)
  && int4 (InsertExamAttempt.maxScore d).

(** [POST /api/auth/register]; the body sent is the new user without the
    password and the creation date. *)
Definition postRegister (now : Z) (body : InsertUser.t) (s : MemStorage)
  : Response User.t * MemStorage :=
  match getUserByUsername (InsertUser.username body) s with
  | Some _ => (Failed 400 "Username already exists", s)
  | None =>
      match getUserByEmail (InsertUser.email body) s with
      | Some _ => (Failed 400 "Email already exists", s)
      | None =>
          let '(user, s1) := createUser now body s in
          (Sent 201 user, s1)
      end
  end.

(** [POST /api/exams/:examId/questions] *)
Definition postQuestion (user : User.t) (examId : Z)
  (body : InsertQuestion.t) (s : MemStorage)
  : Response Question.t * MemStorage :=
  match getExam examId s with
  | None => (Failed 404 "Exam not found", s)
  | Some exam =>
      if negb (Exam.userId exam =? User.id user)
      then (Failed 403 "Forbidden", s)
      else
        let questionData :=
          InsertQuestion.mk examId (InsertQuestion.type body)
            (InsertQuestion.text body) (InsertQuestion.points body)
            (InsertQuestion.order body) (InsertQuestion.options body)
            (InsertQuestion.correctAnswer body) in
        let '(question, s1) := createQuestion questionData s in
        (Sent 201 question, s1)
  end.

(** [PUT /api/questions/:id] *)
Definition putQuestion (user : User.t) (questionId : Z)
  (body : PartialQuestion.t) (s : MemStorage)
  : Response (option Question.t) * MemStorage :=
  match getQuestion questionId s with
  | None => (Failed 404 "Question not found", s)
  | Some question =>
      match getExam (Question.examId question) s with
      | None => (Failed 404 "Exam not found", s)
      | Some exam =>
          if negb (Exam.userId exam =? User.id user)
          then (Failed 403 "Forbidden", s)
          else
            let '(updatedQuestion, s1) := updateQuestion questionId body s in
            (Sent 200 updatedQuestion, s1)
      end
  end.

(** [DELETE /api/questions/:id]; the body sent is only a message. *)
Definition deleteQuestionRoute (user : User.t) (questionId : Z)
  (s : MemStorage) : Response string * MemStorage :=
  match getQuestion questionId s with
  | None => (Failed 404 "Question not found", s)
  | Some question =>
      match getExam (Question.examId question) s with
      | None => (Failed 404 "Exam not found", s)
      | Some exam =>
          if negb (Exam.userId exam =? User.id user)
          then (Failed 403 "Forbidden", s)
          else
            let '(_, s1) := deleteQuestion questionId s in
            (Sent 200 "Question deleted successfully", s1)
      end
  end.

(** The test of the start route for an attempt to hand back:
    [a => a.examId === examId && a.completedAt === null]. *)
Definition inProgressFor (examId : Z) (a : ExamAttempt.t) : bool :=
  (ExamAttempt.examId a =? examId)
  && match ExamAttempt.completedAt a with
     | None => true
     | Some _ => false
     end.

(** [POST /api/exams/:examId/attempts] (StartAttempt).  A [ZodError] of
    the parse is answered with 400. *)
Definition postAttempt (now : Z) (user : User.t) (examId : Z)
  (s : MemStorage) : Response ExamAttempt.t * MemStorage :=
  match getExam examId s with
  | None => (Failed 404 "Exam not found", s)
  | Some exam =>
      if negb (Exam.status exam =? "active")%string
      then (Failed 400 "Exam is not active", s)
      else
        let attempts := getExamAttemptsByUser (User.id user) s in
        let existingAttempt := find (inProgressFor examId) attempts in
        match existingAttempt with
        | Some a => (Sent 200 a, s)
        | None =>
            let questions := getQuestionsByExam examId s in
            let maxScore := sum_by Question.points questions in
            let attemptData :=
              InsertExamAttempt.mk examId (User.id user) maxScore in
            if negb (insertExamAttemptSchema attemptData)
            then (Failed 400 "Invalid input data", s)
            else
              let '(attempt, s1) := createExamAttempt now attemptData s in
              (Sent 201 attempt, s1)
        end
  end.

(** [PUT /api/attempts/:id/complete] (CompleteAttempt).  A [Date] is
    always truthy, so [if (attempt.completedAt)] tests for non-null;
    [Math.floor(x / 1000)] on integers is [Z.div]. *)
Definition putAttemptComplete (now : Z) (user : User.t) (attemptId : Z)
  (s : MemStorage) : Response (option ExamAttempt.t) * MemStorage :=
  match getExamAttempt attemptId s with
  | None => (Failed 404 "Attempt not found", s)
  | Some attempt =>
      if negb (ExamAttempt.userId attempt =? User.id user)
      then (Failed 403 "Forbidden", s)
      else
        match ExamAttempt.completedAt attempt with
        | Some _ => (Failed 400 "Attempt already completed", s)
        | None =>
            let completedAt := now in
            let timeSpent :=
              (completedAt - ExamAttempt.startedAt attempt) / 1000 in
            let answers := getAnswersByAttempt attemptId s in
            let score :=
              sum_by (fun answer => or_zero (Answer.score answer)) answers in
            let '(updatedAttempt, s1) :=
              updateExamAttempt attemptId
                (PartialExamAttempt.mk (Some (Some completedAt))
                   (Some (Some timeSpent)) (Some (Some score))) s in
            (Sent 200 updatedAttempt, s1)
        end
  end.

(** The grading block of the answer route.  It is written twice in the
    source, once after the update of an existing answer and once after the
    creation of a new one, with the same text: [isCorrect] and [score]
    start as [false] and [0] and are assigned only for the two objective
    types. *)
Definition autoGrade (question : Question.t) (answerText : string)
  : bool * Z :=
  if (Question.type question =? "multiple_choice")%string then
    let isCorrect :=
      strict_eq_string answerText (Question.correctAnswer question) in
    (isCorrect, if isCorrect then Question.points question else 0)
  else if (Question.type question =? "true_false")%string then
    let isCorrect :=
      strict_eq_string answerText (Question.correctAnswer question) in
    (isCorrect, if isCorrect then Question.points question else 0)
  else (false, 0).

Definition gradeStored (answerId questionId : Z) (answerText : string)
  (s : MemStorage) : MemStorage :=
  match getQuestion questionId s with
  | None => s
  | Some question =>
      if negb (Question.type question =? "essay")%string then
        let '(isCorrect, score) := autoGrade question answerText in
        snd (updateAnswer answerId
               (PartialAnswer.mk None (Some (Some isCorrect))
                  (Some (Some score)) None) s)
      else s
  end.

(** [POST /api/attempts/:attemptId/answers] (SubmitAnswer).  The body
    carries [questionId] and [answer]. *)
Definition postAnswer (user : User.t) (attemptId questionId : Z)
  (answerText : string) (s : MemStorage)
  : Response (option Answer.t) * MemStorage :=
  match getExamAttempt attemptId s with
  | None => (Failed 404 "Attempt not found", s)
  | Some attempt =>
      if negb (ExamAttempt.userId attempt =? User.id user)
      then (Failed 403 "Forbidden", s)
      else
        match ExamAttempt.completedAt attempt with
        | Some _ => (Failed 400 "Attempt already completed", s)
        | None =>
            let answerData :=
              InsertAnswer.mk attemptId questionId answerText in
            let answers := getAnswersByAttempt attemptId s in
            let existingAnswer :=
              find (fun a =>
                      Answer.questionId a =? InsertAnswer.questionId answerData)
                answers in
            match existingAnswer with
            | Some existing =>
                let '(updatedAnswer, s1) :=
                  updateAnswer (Answer.id existing)
                    (PartialAnswer.mk (Some (InsertAnswer.answer answerData))
                       None None None) s in
                let s2 :=
                  gradeStored (Answer.id existing)
                    (InsertAnswer.questionId answerData)
                    (InsertAnswer.answer answerData) s1 in
                (Sent 200 updatedAnswer, s2)
            | None =>
                let '(answer, s1) := createAnswer answerData s in
                let s2 :=
                  gradeStored (Answer.id answer)
                    (InsertAnswer.questionId answerData)
                    (InsertAnswer.answer answerData) s1 in
                (Sent 201 (Some answer), s2)
            end
        end
  end.

(** [PUT /api/answers/:id/grade] (manual grade).  [score] is [None] when
    the body's [score] is not a number; [isCorrect] is [!!isCorrect]. *)
Definition putAnswerGrade (user : User.t) (answerId : Z)
  (score : option Z) (isCorrect : bool) (s : MemStorage)
  : Response (option Answer.t) * MemStorage :=
  match getAnswer answerId s with
  | None => (Failed 404 "Answer not found", s)
  | Some answer =>
      match getExamAttempt (Answer.attemptId answer) s with
      | None => (Failed 404 "Attempt not found", s)
      | Some attempt =>
          match getExam (ExamAttempt.examId attempt) s with
          | None => (Failed 404 "Exam not found", s)
          | Some exam =>
              if negb (Exam.userId exam =? User.id user)
              then (Failed 403 "Forbidden", s)
              else
                match score with
                | None => (Failed 400 "Invalid score", s)
                | Some score =>
                    if score <? 0 then (Failed 400 "Invalid score", s)
                    else
                      match getQuestion (Answer.questionId answer) s with
                      | None => (Failed 404 "Question not found", s)
                      | Some question =>
                          if score >? Question.points question
                          then
                            (Failed 400 "Score cannot exceed question points",
                             s)
                          else
                            let '(updatedAnswer, s1) :=
                              updateAnswer answerId
                                (PartialAnswer.mk None (Some (Some isCorrect))
                                   (Some (Some score)) (Some true)) s in
                            let answers :=
                              getAnswersByAttempt (ExamAttempt.id attempt) s1 in
                            let totalScore :=
                              sum_by (fun a => or_zero (Answer.score a))
                                answers in
                            let '(_, s2) :=
                              updateExamAttempt (ExamAttempt.id attempt)
                                (PartialExamAttempt.mk None None
                                   (Some (Some totalScore))) s1 in
                            (Sent 200 updatedAnswer, s2)
                      end
                end
          end
      end
  end.

(** [POST /api/answers/:answerId/grading-requests] (RequestReview) *)
Definition postGradingRequest (now : Z) (user : User.t) (answerId : Z)
  (comment : option string) (s : MemStorage)
  : Response GradingRequest.t * MemStorage :=
  match getAnswer answerId s with
  | None => (Failed 404 "Answer not found", s)
  | Some answer =>
      match getExamAttempt (Answer.attemptId answer) s with
      | None => (Failed 404 "Attempt not found", s)
      | Some attempt =>
          if negb (ExamAttempt.userId attempt =? User.id user)
          then (Failed 403 "Forbidden", s)
          else
            let requestData := InsertGradingRequest.mk answerId comment in
            let '(request, s1) := createGradingRequest now requestData s in
            (Sent 201 request, s1)
      end
  end.

(** [PUT /api/grading-requests/:id] (ResolveRequest).  [score] is [None]
    when [typeof score !== 'number']; the object passed to
    [updateGradingRequest] always has the key [comment], so the stored
    comment is replaced also when the body has none. *)
Definition putGradingRequest (now : Z) (user : User.t) (requestId : Z)
  (status : string) (comment : option string) (score : option Z)
  (s : MemStorage) : Response (option GradingRequest.t) * MemStorage :=
  match getGradingRequest requestId s with
  | None => (Failed 404 "Grading request not found", s)
  | Some request =>
      match getAnswer (GradingRequest.answerId request) s with
      | None => (Failed 404 "Answer not found", s)
      | Some answer =>
          match getExamAttempt (Answer.attemptId answer) s with
          | None => (Failed 404 "Attempt not found", s)
          | Some attempt =>
              match getExam (ExamAttempt.examId attempt) s with
              | None => (Failed 404 "Exam not found", s)
              | Some exam =>
                  if negb (Exam.userId exam =? User.id user)
                  then (Failed 403 "Forbidden", s)
                  else if negb ((status =? "approved")%string
                                || (status =? "rejected")%string)
                  then (Failed 400 "Invalid status", s)
                  else
                    let '(updatedRequest, s1) :=
                      updateGradingRequest requestId
                        (PartialGradingRequest.mk (Some status) (Some comment)
                           (Some (Some now))) s in
                    match (status =? "approved")%string, score with
                    | true, Some score =>
                        match getQuestion (Answer.questionId answer) s1 with
                        | None => (Failed 404 "Question not found", s1)
                        | Some question =>
                            if score >? Question.points question
                            then
                              (Failed 400
                                 "Score cannot exceed question points", s1)
                            else
                              let '(_, s2) :=
                                updateAnswer (Answer.id answer)
                                  (PartialAnswer.mk None
                                     (Some (Some (score >? 0)))
                                     (Some (Some score)) (Some true)) s1 in
                              let answers :=
                                getAnswersByAttempt (ExamAttempt.id attempt)
                                  s2 in
                              let totalScore :=
                                sum_by (fun a => or_zero (Answer.score a))
                                  answers in
                              let '(_, s3) :=
                                updateExamAttempt (ExamAttempt.id attempt)
                                  (PartialExamAttempt.mk None None
                                     (Some (Some totalScore))) s2 in
                              (Sent 200 updatedRequest, s3)
                        end
                    | _, _ => (Sent 200 updatedRequest, s1)
                    end
              end
          end
      end
  end.

(** The exam routes, which only touch the exams. *)

(** The fields [POST /api/exams] reads from the body;
    [parseInt(duration) || 60]. *)
Module ExamBody.
Record t := mk {
  title : string; subject : string; description : option string;
  duration : option Z; status : option string }.
End ExamBody.

Definition nonempty (x : option string) : option string :=
  match x with
  | Some v => if (v =? "")%string then None else Some v
  | None => None
  end.

(** [POST /api/exams]; [code] is the share code drawn by
    [generateShareCode]. *)
Definition postExam (now : Z) (code : string) (user : User.t)
  (body : ExamBody.t) (s : MemStorage) : Response Exam.t * MemStorage :=
  let examData :=
    InsertExam.mk (ExamBody.title body) (ExamBody.subject body)
      (nonempty (ExamBody.description body))
      (match ExamBody.duration body with
       | Some d => if d =? 0 then 60 else d
       | None => 60
       end)
      (match nonempty (ExamBody.status body) with
       | Some x => Some x
       | None => Some "draft"
       end)
      (User.id user) None None in
  let '(exam, s1) := createExam now code examData s in
  (Sent 201 exam, s1).

(** [PUT /api/exams/:id]; [upload] is the name of the uploaded file, if
    any.  The files on disk are outside the store. *)
Definition putExam (user : User.t) (examId : Z) (body : PartialExam.t)
  (upload : option string) (s : MemStorage)
  : Response (option Exam.t) * MemStorage :=
  match getExam examId s with
  | None => (Failed 404 "Exam not found", s)
  | Some exam =>
      if negb (Exam.userId exam =? User.id user)
      then (Failed 403 "Forbidden", s)
      else
        let fileUrl :=
          match upload with
          | Some filename => Some ("/uploads/" ++ filename)%string
          | None => Exam.fileUrl exam
          end in
        let updatedExamData :=
          PartialExam.mk (PartialExam.id body) (PartialExam.title body)
            (PartialExam.subject body) (PartialExam.description body)
            (PartialExam.duration body) (PartialExam.status body)
            (PartialExam.createdAt body) (PartialExam.userId body)
            (Some fileUrl) (PartialExam.shareCode body)
            (PartialExam.isPublic body) in
        let '(updatedExam, s1) := updateExam examId updatedExamData s in
        (Sent 200 updatedExam, s1)
  end.

(** [DELETE /api/exams/:id] *)
Definition deleteExamRoute (user : User.t) (examId : Z) (s : MemStorage)
  : Response string * MemStorage :=
  match getExam examId s with
  | None => (Failed 404 "Exam not found", s)
  | Some exam =>
      if negb (Exam.userId exam =? User.id user)
      then (Failed 403 "Forbidden", s)
      else
        let '(_, s1) := deleteExam examId s in
        (Sent 200 "Exam deleted successfully", s1)
  end.

(** The middleware [isAuthenticated] (and [isTeacher], which has the same
    text): [req.user] is the first user of the store; a store without users
    gets a test user first. *)
Definition isAuthenticated (now : Z) (s : MemStorage) : User.t * MemStorage :=
  match getUsers s with
  | user :: _ => (user, s)
  | [] =>
      createUser now
        (InsertUser.mk "admin" "password" "admin@example.com"
           "مدير النظام" (Some "teacher")) s
  end.

(** [GET /api/exams/code/:shareCode] *)
Definition getExamByCodeRoute (shareCode : string) (s : MemStorage)
  : Response Exam.t :=
  if (shareCode =? "")%string then Failed 400 "رمز المشاركة مطلوب"
  else
    match getExamByShareCode shareCode s with
    | None => Failed 404 "لم يتم العثور على اختبار بهذا الرمز"
    | Some exam =>
        if negb (Exam.status exam =? "active")%string
        then Failed 403 "هذا الاختبار غير متاح حالياً"
        else Sent 200 exam
    end.

(** [GET /api/attempts/:id]: the attempt and its answers. *)
Definition getAttemptRoute (user : User.t) (attemptId : Z) (s : MemStorage)
  : Response (ExamAttempt.t * list Answer.t) :=
  match getExamAttempt attemptId s with
  | None => Failed 404 "Attempt not found"
  | Some attempt =>
      match getExam (ExamAttempt.examId attempt) s with
      | None => Failed 404 "Exam not found"
      | Some exam =>
          if (User.role user =? "student")%string
             && negb (ExamAttempt.userId attempt =? User.id user)
          then Failed 403 "Forbidden"
          else if (User.role user =? "teacher")%string
                  && negb (Exam.userId exam =? User.id user)
          then Failed 403 "Forbidden"
          else Sent 200 (attempt, getAnswersByAttempt attemptId s)
      end
  end.

(** An entry of [GET /api/grading-requests]: the request with its answer,
    question, exam and student. *)
Module RequestView.
Record t := mk {
  request : GradingRequest.t; answer : Answer.t;
  question : option Question.t; exam : Exam.t; student : option User.t }.
End RequestView.

(** The loop of [GET /api/grading-requests] over the pending requests: a
    request whose answer, attempt or exam is missing, or whose exam is
    someone else's, is skipped with [continue]. *)
Fixpoint filteredRequests (user : User.t) (s : MemStorage)
  (pendingRequests : list GradingRequest.t) : list RequestView.t :=
  match pendingRequests with
  | [] => []
  | request :: rest =>
      match getAnswer (GradingRequest.answerId request) s with
      | None => filteredRequests user s rest
      | Some answer =>
          match getExamAttempt (Answer.attemptId answer) s with
          | None => filteredRequests user s rest
          | Some attempt =>
              match getExam (ExamAttempt.examId attempt) s with
              | None => filteredRequests user s rest
              | Some exam =>
                  if negb (Exam.userId exam =? User.id user)
                  then filteredRequests user s rest
                  else
                    RequestView.mk request answer
                      (getQuestion (Answer.questionId answer) s) exam
                      (getUser (ExamAttempt.userId attempt) s)
                    :: filteredRequests user s rest
              end
          end
      end
  end.

(** [GET /api/grading-requests] *)
Definition getGradingRequestsRoute (user : User.t) (s : MemStorage)
  : Response (list RequestView.t) :=
  Sent 200 (filteredRequests user s (getPendingGradingRequests s)).

(** ** Requests and reachable stores *)

(** The routes that write to the store, each with the inputs its handler
    reads.  The read-only routes leave the store as it is; so does the
    middleware, which adds a user only to a store without users, and the
    constructor has already made one. *)
Inductive Request :=
| PostRegister (now : Z) (body : InsertUser.t)
| PostExam (now : Z) (code : string) (user : User.t) (body : ExamBody.t)
| PutExam (user : User.t) (examId : Z) (body : PartialExam.t)
    (upload : option string)
| DeleteExam (user : User.t) (examId : Z)
| PostQuestion (user : User.t) (examId : Z) (body : InsertQuestion.t)
| PutQuestion (user : User.t) (questionId : Z) (body : PartialQuestion.t)
| DeleteQuestion (user : User.t) (questionId : Z)
| PostAttempt (now : Z) (user : User.t) (examId : Z)
| PutAttemptComplete (now : Z) (user : User.t) (attemptId : Z)
| PostAnswer (user : User.t) (attemptId questionId : Z) (answer : string)
| PutAnswerGrade (user : User.t) (answerId : Z) (score : option Z)
    (isCorrect : bool)
| PostGradingRequest (now : Z) (user : User.t) (answerId : Z)
    (comment : option string)
| PutGradingRequest (now : Z) (user : User.t) (requestId : Z)
    (status : string) (comment : option string) (score : option Z).

(** The store after a request has been handled. *)
Definition handle (r : Request) (s : MemStorage) : MemStorage :=
  match r with
  | PostRegister now body => snd (postRegister now body s)
  | PostExam now code user body => snd (postExam now code user body s)
  | PutExam user examId body upload => snd (putExam user examId body upload s)
  | DeleteExam user examId => snd (deleteExamRoute user examId s)
  | PostQuestion user examId body => snd (postQuestion user examId body s)
  | PutQuestion user questionId body =>
      snd (putQuestion user questionId body s)
  | DeleteQuestion user questionId => snd (deleteQuestionRoute user questionId s)
  | PostAttempt now user examId => snd (postAttempt now user examId s)
  | PutAttemptComplete now user attemptId =>
      snd (putAttemptComplete now user attemptId s)
  | PostAnswer user attemptId questionId answer =>
      snd (postAnswer user attemptId questionId answer s)
  | PutAnswerGrade user answerId score isCorrect =>
      snd (putAnswerGrade user answerId score isCorrect s)
  | PostGradingRequest now user answerId comment =>
      snd (postGradingRequest now user answerId comment s)
  | PutGradingRequest now user requestId status comment score =>
      snd (putGradingRequest now user requestId status comment score s)
  end.

(** The store after a sequence of requests, handled one after another. *)
Definition run (rs : list Request) (s : MemStorage) : MemStorage :=
  fold_left (fun st r => handle r st) rs s.

(** A store is reachable when the routes produce it from a fresh one. *)
Inductive reachable : MemStorage -> Prop :=
| reachable_new (now : Z) : reachable (newMemStorage now)
| reachable_handle (r : Request) (s : MemStorage) :
    reachable s -> reachable (handle r s).

(** ** Invariants of the store *)

(** Every record sits under its own [id], and no key occurs twice. *)
Definition keyed {V : Type} (id : V -> Z) (m : JsMap.t V) : Prop :=
  NoDup (JsMap.keys m) /\ Forall (fun kv => id (snd kv) = fst kv) m.

(** Every key is below the counter that hands out the next one. *)
Definition below {V : Type} (n : Z) (m : JsMap.t V) : Prop :=
  Forall (fun k => k < n) (JsMap.keys m).

(** At most one attempt in progress for a user and an exam. *)
Definition one_in_progress (m : JsMap.t ExamAttempt.t) : Prop :=
  forall a b,
    In a (JsMap.values m) -> In b (JsMap.values m) ->
    ExamAttempt.userId a = ExamAttempt.userId b ->
    ExamAttempt.examId a = ExamAttempt.examId b ->
    ExamAttempt.completedAt a = None -> ExamAttempt.completedAt b = None ->
    ExamAttempt.id a = ExamAttempt.id b.

Record store_ok (s : MemStorage) : Prop := mkStoreOk {
  ok_answers : keyed Answer.id (answers s);
  ok_attempts : keyed ExamAttempt.id (examAttempts s);
  ok_attempt_ids : below (attemptIdCounter s) (examAttempts s);
  ok_in_progress : one_in_progress (examAttempts s) }.

(** The plain sum of a list of integers, against which the [reduce] calls
    of the routes are stated. *)
Definition total (l : list Z) : Z := fold_right Z.add 0 l.

(** The sum as the [reduce] calls compute it, from the left in numbers. *)
Definition js_total (l : list Z) : Z := fold_left js_add l 0.

(** Integers whose sizes add up to at most [2^53]: every sum of some of
    them is held exactly. *)
Definition safe (l : list Z) : Prop := total (map Z.abs l) <= 2 ^ 53.

(** The scores of the answers of an attempt, [null] read as [0]. *)
Definition scores_of (attemptId : Z) (s : MemStorage) : list Z :=
  map (fun a => or_zero (Answer.score a))
    (filter (fun a => Answer.attemptId a =? attemptId)
       (JsMap.values (answers s))).

(** The points of the questions of an exam, in the order of the store. *)
Definition points_of (examId : Z) (s : MemStorage) : list Z :=
  map Question.points
    (filter (fun q => Question.examId q =? examId)
       (JsMap.values (questions s))).

(** The same points in the order in which the start route adds them. *)
Definition points_in_order (examId : Z) (s : MemStorage) : list Z :=
  map Question.points (getQuestionsByExam examId s).

(** What the grading block leaves under the graded [id]. *)
Definition graded (question : Question.t) (answerText : string)
  (a : Answer.t) : Answer.t :=
  if (Question.type question =? "essay")%string then a
  else
    Answer.mk (Answer.id a) (Answer.attemptId a) (Answer.questionId a)
      (Answer.answer a) (Some (fst (autoGrade question answerText)))
      (Some (snd (autoGrade question answerText))) (Answer.manuallyGraded a).

(** Every attempt of the first store is still in the second, with the
    [maxScore] it had. *)
Definition keeps_maxScore (s s' : MemStorage) : Prop :=
  forall id a,
    getExamAttempt id s = Some a ->
    exists a',
      getExamAttempt id s' = Some a' /\
      ExamAttempt.maxScore a' = ExamAttempt.maxScore a.

(** The bound on scores: a score that is not null lies between 0 and the
    points of the answer's question. *)
Definition score_bounds (s : MemStorage) : Prop :=
  forall a q,
    In a (JsMap.values (answers s)) ->
    getQuestion (Answer.questionId a) s = Some q ->
    match Answer.score a with
    | None => True
    | Some n => 0 <= n <= Question.points q
    end.

Definition points_nonneg (s : MemStorage) : Prop :=
  forall k q, getQuestion k s = Some q -> 0 <= Question.points q.

(** The requests that grade: an answer submission, a manual grade, and a
    resolution whose score, if there is one, is not negative. *)
Definition grading_step (r : Request) : Prop :=
  match r with
  | PostAnswer _ _ _ _ => True
  | PutAnswerGrade _ _ _ _ => True
  | PutGradingRequest _ _ _ _ _ (Some n) => 0 <= n
  | PutGradingRequest _ _ _ _ _ None => True
  | _ => False
  end.

(** ** A worked session

    One teacher (the constructor's user, which the middleware hands to
    every handler) makes an active exam with a multiple-choice question
    worth 5 points and an essay worth 2, starts an attempt, answers the
    first question and asks for a review of that answer. *)

Definition teacher : User.t := adminUser 0.

Definition session : list Request :=
  [ PostExam 0 "ABCDEF" teacher
      (ExamBody.mk "Algebra" "Math" None (Some 60) (Some "active"));
    PostQuestion teacher 1
      (InsertQuestion.mk 0 "multiple_choice" "2 + 2 = ?" (Some 5) (Some 1)
         (JArray ["3"; "4"]) (JString "2"));
    PostQuestion teacher 1
      (InsertQuestion.mk 0 "essay" "Why?" (Some 2) (Some 2) JNull JNull);
    PostAttempt 1000 teacher 1;
    PostAnswer teacher 1 1 "2";
    PostGradingRequest 2000 teacher 1 None ].

Definition session_store : MemStorage := run session (newMemStorage 0).

(** The attempt and the answer of that store. *)
Definition session_attempt : ExamAttempt.t :=
  ExamAttempt.mk 1 1 1 1000 None None 7 None.

Definition session_answer : Answer.t :=
  Answer.mk 1 1 1 "2" (Some true) (Some 5) false.

(** What may follow the session: a question worth 10 more points, and the
    completion of the attempt. *)
Definition later : list Request :=
  [ PostQuestion teacher 1
      (InsertQuestion.mk 0 "true_false" "Is 2 even?" (Some 10) (Some 3) JNull
         (JString "true"));
    PutAttemptComplete 61500 teacher 1 ].

(** A second session: four questions, answered true, a, c and with a
    text, which are worth 2, 0 and 3 points and nothing yet. *)
Definition quiz : list Request :=
  [ PostExam 0 "GHJKLM" teacher
      (ExamBody.mk "Quiz" "Logic" None None (Some "active"));
    PostQuestion teacher 1
      (InsertQuestion.mk 0 "true_false" "A or not A" (Some 2) (Some 1) JNull
         (JString "true"));
    PostQuestion teacher 1
      (InsertQuestion.mk 0 "multiple_choice" "Pick b" (Some 4) (Some 2)
         (JArray ["a"; "b"]) (JString "b"));
    PostQuestion teacher 1
      (InsertQuestion.mk 0 "multiple_choice" "Pick c" (Some 3) (Some 3)
         (JArray ["c"; "d"]) (JString "c"));
    PostQuestion teacher 1
      (InsertQuestion.mk 0 "essay" "Explain" (Some 5) (Some 4) JNull JNull);
    PostAttempt 1000 teacher 1;
    PostAnswer teacher 1 1 "true";
    PostAnswer teacher 1 2 "a";
    PostAnswer teacher 1 3 "c";
    PostAnswer teacher 1 4 "Because." ].

Definition quiz_store : MemStorage := run quiz (newMemStorage 0).

(** The quiz after the second question has been answered again, now
    with the right option. *)
Definition resubmitted_store : MemStorage :=
  handle (PostAnswer teacher 1 2 "b") quiz_store.

(** The session after the attempt has been completed. *)
Definition completed_store : MemStorage :=
  handle (PutAttemptComplete 61500 teacher 1) session_store.

(** A question whose type is none of the three known ones: the schema
    takes any text as [type]. *)
Definition survey : list Request :=
  [ PostExam 0 "QRSTUV" teacher
      (ExamBody.mk "Colours" "Art" None None (Some "active"));
    PostQuestion teacher 1
      (InsertQuestion.mk 0 "short_answer" "Colour of the sky?" (Some 4) None
         JNull (JString "blue"));
    PostAttempt 1000 teacher 1 ].

Definition survey_store : MemStorage := run survey (newMemStorage 0).

(** The session after the teacher has approved the review request with a
    score of -3. *)
Definition regraded_store : MemStorage :=
  handle (PutGradingRequest 3000 teacher 1 "approved" None (Some (-3)))
    session_store.

(** The session before the attempt is started, and the attempt of the
    quiz. *)
Definition before_start : MemStorage := run (firstn 3 session) (newMemStorage 0).

Definition quiz_attempt : ExamAttempt.t :=
  ExamAttempt.mk 1 1 1 1000 None None 14 None.

(** The quiz after a review of the second answer (scored 0, on a question
    worth 4) has been asked for. *)
Definition quiz_review_store : MemStorage :=
  handle (PostGradingRequest 2000 teacher 2 None) quiz_store.

(** ** Sessions with large numbers

    The update route of a question stores the body as it comes, so the
    points of a question can be any number.  Here a question of an exam
    with an attempt in progress is given [2^53] points; the answers to
    the two questions then score [2^53] and [1]. *)
Definition large : list Request :=
  [ PostExam 0 "NPQRST" teacher
      (ExamBody.mk "Sums" "Math" None None (Some "active"));
    PostQuestion teacher 1
      (InsertQuestion.mk 0 "multiple_choice" "Pick a" (Some 1) (Some 1)
         (JArray ["a"; "b"]) (JString "a"));
    PostQuestion teacher 1
      (InsertQuestion.mk 0 "multiple_choice" "Pick b" (Some 1) (Some 2)
         (JArray ["a"; "b"]) (JString "b"));
    PostAttempt 1000 teacher 1;
    PutQuestion teacher 1
      (PartialQuestion.mk None None None None (Some 9007199254740992) None
         None None);
    PostAnswer teacher 1 1 "a" ].

Definition large_store : MemStorage :=
  run (large ++ [PostAnswer teacher 1 2 "b"]) (newMemStorage 0).

(** The same with the second question answered wrongly and a review of
    that answer asked for. *)
Definition large_review_store : MemStorage :=
  run (large ++ [PostAnswer teacher 1 2 "a";
                 PostGradingRequest 2000 teacher 2 None]) (newMemStorage 0).

(** An exam whose three questions are given [2^53], [1] and [-2^53]
    points. *)
Definition cancelling : list Request :=
  [ PostExam 0 "UVWXYZ" teacher
      (ExamBody.mk "Sums" "Math" None None (Some "active"));
    PostQuestion teacher 1
      (InsertQuestion.mk 0 "essay" "First" (Some 1) (Some 1) JNull JNull);
    PostQuestion teacher 1
      (InsertQuestion.mk 0 "essay" "Second" (Some 1) (Some 2) JNull JNull);
    PostQuestion teacher 1
      (InsertQuestion.mk 0 "essay" "Third" (Some 1) (Some 3) JNull JNull);
    PutQuestion teacher 1
      (PartialQuestion.mk None None None None (Some 9007199254740992) None
         None None);
    PutQuestion teacher 3
      (PartialQuestion.mk None None None None (Some (-9007199254740992)) None
         None None) ].

Definition cancelling_store : MemStorage := run cancelling (newMemStorage 0).

(** An exam with two questions worth [2^31 - 1] points each. *)
Definition heavy : list Request :=
  [ PostExam 0 "234567" teacher
      (ExamBody.mk "Sums" "Math" None None (Some "active"));
    PostQuestion teacher 1
      (InsertQuestion.mk 0 "essay" "First" (Some 2147483647) (Some 1) JNull
         JNull);
    PostQuestion teacher 1
      (InsertQuestion.mk 0 "essay" "Second" (Some 2147483647) (Some 2) JNull
         JNull) ].

Definition heavy_store : MemStorage := run heavy (newMemStorage 0).

(** ** Further invariants of the store *)

(** The counter starts at 1 and the keys are distinct, at least 1 and
    below the counter: ids are handed out in sequence. *)
Definition sequential {V : Type} (counter : Z) (m : JsMap.t V) : Prop :=
  1 <= counter /\ NoDup (JsMap.keys m) /\
  Forall (fun k => 1 <= k < counter) (JsMap.keys m).

Record ids_ok (s : MemStorage) : Prop := mkIdsOk {
  ids_users : sequential (userIdCounter s) (users s);
  ids_exams : sequential (examIdCounter s) (exams s);
  ids_questions : sequential (questionIdCounter s) (questions s);
  ids_attempts : sequential (attemptIdCounter s) (examAttempts s);
  ids_answers : sequential (answerIdCounter s) (answers s);
  ids_requests : sequential (requestIdCounter s) (gradingRequests s);
  ids_user_keyed : keyed User.id (users s);
  ids_request_keyed : keyed GradingRequest.id (gradingRequests s) }.

(** At most one answer for an attempt and a question. *)
Definition one_answer (m : JsMap.t Answer.t) : Prop :=
  forall a b,
    In a (JsMap.values m) -> In b (JsMap.values m) ->
    Answer.attemptId a = Answer.attemptId b ->
    Answer.questionId a = Answer.questionId b ->
    Answer.id a = Answer.id b.

(** Every answer belongs to a stored attempt and every grading request to
    a stored answer. *)
Definition refs_ok (s : MemStorage) : Prop :=
  (forall a, In a (JsMap.values (answers s)) ->
             getExamAttempt (Answer.attemptId a) s <> None) /\
  (forall r, In r (JsMap.values (gradingRequests s)) ->
             getAnswer (GradingRequest.answerId r) s <> None).

(** The score of a completed attempt is the sum of the scores of its
    answers. *)
Definition completed_scores_ok (s : MemStorage) : Prop :=
  forall id a,
    getExamAttempt id s = Some a ->
    ExamAttempt.completedAt a <> None ->
    ExamAttempt.score a = Some (js_total (scores_of id s)).

(** No two users with the same name or the same email. *)
Definition users_distinct (s : MemStorage) : Prop :=
  NoDup (map User.username (getUsers s)) /\
  NoDup (map User.email (getUsers s)).

(** The first user of the store is the one the constructor made. *)
Definition admin_first (s : MemStorage) : Prop :=
  exists now, hd_error (getUsers s) = Some (adminUser now).

(** What the second store keeps of the first: every user as it is, and
    every attempt, answer and grading request under its id with the fields
    that tie it to the other records. *)
Definition persists (s s' : MemStorage) : Prop :=
  (forall id u, getUser id s = Some u -> getUser id s' = Some u) /\
  (forall id a,
      getExamAttempt id s = Some a ->
      exists a',
        getExamAttempt id s' = Some a' /\
        ExamAttempt.examId a' = ExamAttempt.examId a /\
        ExamAttempt.userId a' = ExamAttempt.userId a /\
        ExamAttempt.startedAt a' = ExamAttempt.startedAt a) /\
  (forall id a,
      getAnswer id s = Some a ->
      exists a',
        getAnswer id s' = Some a' /\
        Answer.attemptId a' = Answer.attemptId a /\
        Answer.questionId a' = Answer.questionId a) /\
  (forall id r,
      getGradingRequest id s = Some r ->
      exists r',
        getGradingRequest id s' = Some r' /\
        GradingRequest.answerId r' = GradingRequest.answerId r /\
        GradingRequest.requestedAt r' = GradingRequest.requestedAt r).

(** The collections of the store, and the ones a request may write to. *)
Inductive Collection :=
| Users | Exams | Questions | Attempts | Answers | Requests.

Definition footprint (r : Request) : list Collection :=
  match r with
  | PostRegister _ _ => [Users]
  | PostExam _ _ _ _ | PutExam _ _ _ _ | DeleteExam _ _ => [Exams]
  | PostQuestion _ _ _ | PutQuestion _ _ _ | DeleteQuestion _ _ =>
      [Questions]
  | PostAttempt _ _ _ | PutAttemptComplete _ _ _ => [Attempts]
  | PostAnswer _ _ _ _ => [Answers]
  | PutAnswerGrade _ _ _ _ => [Answers; Attempts]
  | PostGradingRequest _ _ _ _ => [Requests]
  | PutGradingRequest _ _ _ _ _ _ => [Requests; Answers; Attempts]
  end.

(** A collection, with its id counter, is the same in both stores. *)
Definition unchanged (c : Collection) (s s' : MemStorage) : Prop :=
  match c with
  | Users => users s' = users s /\ userIdCounter s' = userIdCounter s
  | Exams => exams s' = exams s /\ examIdCounter s' = examIdCounter s
  | Questions =>
      questions s' = questions s /\
      questionIdCounter s' = questionIdCounter s
  | Attempts =>
      examAttempts s' = examAttempts s /\
      attemptIdCounter s' = attemptIdCounter s
  | Answers => answers s' = answers s /\ answerIdCounter s' = answerIdCounter s
  | Requests =>
      gradingRequests s' = gradingRequests s /\
      requestIdCounter s' = requestIdCounter s
  end.

(** The grading block on an answer, given what the lookup of the question
    returned: nothing happens without the question. *)
Definition regrade (q : option Question.t) (answerText : string)
  (a : Answer.t) : Answer.t :=
  match q with
  | Some question => graded question answerText a
  | None => a
  end.

(** The answer the submission route works on before it grades: the one
    found with the new text, or a fresh one under the next id. *)
Definition submitted (attemptId questionId : Z) (answerText : string)
  (s : MemStorage) : Answer.t :=
  match find (fun a => Answer.questionId a =? questionId)
          (getAnswersByAttempt attemptId s) with
  | Some existing =>
      Answer.mk (Answer.id existing) (Answer.attemptId existing)
        (Answer.questionId existing) answerText (Answer.isCorrect existing)
        (Answer.score existing) (Answer.manuallyGraded existing)
  | None =>
      Answer.mk (answerIdCounter s) attemptId questionId answerText None None
        false
  end.

(** What a grade (manual, or by an approved request) does to the answers
    and the attempts: one answer gets new grade fields under its id, and
    its attempt gets the sum of the scores of its answers in the new
    store. *)
Definition regraded_by (s s' : MemStorage) : Prop :=
  exists (answer new : Answer.t) (attempt : ExamAttempt.t),
    JsMap.get (Answer.id answer) (answers s) = Some answer /\
    JsMap.get (ExamAttempt.id attempt) (examAttempts s) = Some attempt /\
    Answer.attemptId answer = ExamAttempt.id attempt /\
    Answer.id new = Answer.id answer /\
    Answer.attemptId new = Answer.attemptId answer /\
    Answer.questionId new = Answer.questionId answer /\
    answers s' = JsMap.set (Answer.id answer) new (answers s) /\
    examAttempts s'
    = JsMap.set (ExamAttempt.id attempt)
        (ExamAttempt.mk (ExamAttempt.id attempt) (ExamAttempt.examId attempt)
           (ExamAttempt.userId attempt) (ExamAttempt.startedAt attempt)
           (ExamAttempt.completedAt attempt)
           (Some (js_total (scores_of (ExamAttempt.id attempt) s')))
           (ExamAttempt.maxScore attempt) (ExamAttempt.timeSpent attempt))
        (examAttempts s).

(** The storage methods are unfolded by name in the proofs. *)
Arguments createExamAttempt : simpl never.
Arguments updateExamAttempt : simpl never.
Arguments createAnswer : simpl never.
Arguments updateAnswer : simpl never.
Arguments updateGradingRequest : simpl never.
Arguments gradeStored : simpl never.

(** ** Lemmas on [JsMap] *)

Section JsMapFacts.
Context {V : Type}.
Implicit Types (m : JsMap.t V) (k : Z) (v : V).

Lemma get_set_eq m k v : JsMap.get k (JsMap.set k v m) = Some v.
Proof.
  induction m as [|[k' v'] m IH]; simpl.
  - now rewrite Z.eqb_refl.
  - destruct (k =? k') eqn:E; simpl; rewrite ?Z.eqb_refl, ?E; auto.
Qed.

Lemma get_set_ne m k k' v :
  k <> k' -> JsMap.get k' (JsMap.set k v m) = JsMap.get k' m.
Proof.
  intros Hne. induction m as [|[k0 v0] m IH]; simpl.
  - destruct (k' =? k) eqn:E; auto. apply Z.eqb_eq in E. congruence.
  - destruct (k =? k0) eqn:E; simpl.
    + apply Z.eqb_eq in E. subst k0.
      destruct (k' =? k) eqn:E'; auto.
      apply Z.eqb_eq in E'. congruence.
    + now rewrite IH.
Qed.

(** [get] and [set] both work on the first entry of the key. *)
Lemma set_split m k v old :
  JsMap.get k m = Some old ->
  exists m1 m2,
    m = m1 ++ (k, old) :: m2 /\ JsMap.set k v m = m1 ++ (k, v) :: m2.
Proof.
  induction m as [|[k' v'] m IH]; simpl; intros H; [discriminate|].
  destruct (k =? k') eqn:E.
  - apply Z.eqb_eq in E. subst k'. injection H as ->.
    now exists [], m.
  - destruct (IH H) as (m1 & m2 & -> & Hs).
    exists ((k', v') :: m1), m2. simpl. now rewrite Hs.
Qed.

Lemma set_append m k v :
  JsMap.get k m = None -> JsMap.set k v m = m ++ [(k, v)].
Proof.
  induction m as [|[k' v'] m IH]; simpl; intros H; auto.
  destruct (k =? k'); [discriminate|]. now rewrite IH.
Qed.

Lemma get_none_keys m k : JsMap.get k m = None <-> ~ In k (JsMap.keys m).
Proof.
  induction m as [|[k' v'] m IH]; simpl.
  - tauto.
  - destruct (k =? k') eqn:E.
    + apply Z.eqb_eq in E. split; [discriminate|]. intros H. exfalso. auto.
    + apply Z.eqb_neq in E. rewrite IH. split; intros H; [|tauto].
      intros [H1|H1]; [congruence|tauto].
Qed.

Lemma get_in m k v : JsMap.get k m = Some v -> In (k, v) m.
Proof.
  induction m as [|[k' v'] m IH]; simpl; intros H; [discriminate|].
  destruct (k =? k') eqn:E; auto.
  apply Z.eqb_eq in E. injection H as ->. subst. now left.
Qed.

Lemma get_in_values m k v : JsMap.get k m = Some v -> In v (JsMap.values m).
Proof.
  intros H. apply get_in in H. unfold JsMap.values.
  change v with (snd (k, v)). now apply in_map.
Qed.

Lemma keys_set m k v :
  JsMap.keys (JsMap.set k v m) =
  match JsMap.get k m with
  | Some _ => JsMap.keys m
  | None => JsMap.keys m ++ [k]
  end.
Proof.
  induction m as [|[k' v'] m IH]; simpl; auto.
  destruct (k =? k') eqn:E; simpl.
  - apply Z.eqb_eq in E. now subst.
  - rewrite IH. now destruct (JsMap.get k m).
Qed.

Lemma in_set m k v kv :
  In kv (JsMap.set k v m) -> kv = (k, v) \/ In kv m.
Proof.
  induction m as [|[k' v'] m IH]; simpl.
  - intros [H|[]]; auto.
  - destruct (k =? k'); simpl; intros [H|H]; auto.
    destruct (IH H); auto.
Qed.

Lemma in_values_set m k v x :
  In x (JsMap.values (JsMap.set k v m)) -> x = v \/ In x (JsMap.values m).
Proof.
  unfold JsMap.values. rewrite !in_map_iff.
  intros (kv & <- & Hin). apply in_set in Hin as [->|Hin]; auto.
  right. now exists kv.
Qed.

Lemma keyed_set (id : V -> Z) m k v :
  keyed id m -> id v = k -> keyed id (JsMap.set k v m).
Proof.
  intros [Hnd Hid] Hv. split.
  - rewrite keys_set. destruct (JsMap.get k m) eqn:E; auto.
    apply get_none_keys in E.
    apply NoDup_app; auto.
    + constructor; [tauto | constructor].
    + intros x Hx [<-|[]]. tauto.
  - rewrite Forall_forall in *. intros kv Hin.
    apply in_set in Hin as [->|Hin]; auto.
Qed.

Lemma keyed_get_id (id : V -> Z) m k v :
  keyed id m -> JsMap.get k m = Some v -> id v = k.
Proof.
  intros [_ Hid] H. apply get_in in H.
  rewrite Forall_forall in Hid. exact (Hid _ H).
Qed.

Lemma nodup_in_get m k v :
  NoDup (JsMap.keys m) -> In (k, v) m -> JsMap.get k m = Some v.
Proof.
  induction m as [|[k' v'] m IH]; simpl; intros Hnd Hin; [tauto|].
  inversion Hnd as [|? ? Hn Hnd']; subst.
  destruct Hin as [H|H].
  - injection H as -> ->. now rewrite Z.eqb_refl.
  - destruct (k =? k') eqn:E; auto.
    apply Z.eqb_eq in E. subst k'. exfalso. apply Hn.
    change k with (fst (k, v)). now apply in_map.
Qed.

Lemma keyed_in_get (id : V -> Z) m v :
  keyed id m -> In v (JsMap.values m) -> JsMap.get (id v) m = Some v.
Proof.
  intros [Hnd Hid] Hin. unfold JsMap.values in Hin.
  apply in_map_iff in Hin as ([k v'] & Hv & Hin). simpl in Hv. subst v'.
  rewrite Forall_forall in Hid. specialize (Hid _ Hin). simpl in Hid.
  rewrite Hid. now apply nodup_in_get.
Qed.

Lemma below_set n m k v :
  below n m -> JsMap.get k m <> None -> below n (JsMap.set k v m).
Proof.
  unfold below. intros H Hk. rewrite keys_set.
  destruct (JsMap.get k m); [auto | congruence].
Qed.

Lemma below_set_next m k v : below k m -> below (k + 1) (JsMap.set k v m).
Proof.
  unfold below. intros H. rewrite keys_set.
  assert (H' : Forall (fun x => x < k + 1) (JsMap.keys m)).
  { eapply Forall_impl; [|exact H]. simpl. intros. lia. }
  destruct (JsMap.get k m); auto.
  apply Forall_app. split; auto. constructor; [lia | constructor].
Qed.

Lemma below_get_none m k : below k m -> JsMap.get k m = None.
Proof.
  unfold below. intros H. apply get_none_keys. intros Hin.
  rewrite Forall_forall in H. specialize (H _ Hin). lia.
Qed.
End JsMapFacts.

(** ** Lemmas on the sums *)

Lemma total_app (l1 l2 : list Z) : total (l1 ++ l2) = total l1 + total l2.
Proof. unfold total. induction l1; simpl; lia. Qed.

(** An integer of at most 53 bits, and [2^53] itself, is its own double. *)
Lemma to_double_exact (n : Z) : Z.abs n <= 2 ^ 53 -> to_double n = n.
Proof.
  intros Hn. unfold to_double.
  destruct (Z.abs n <? 2 ^ 53) eqn:E; [reflexivity|].
  apply Z.ltb_ge in E.
  assert (H : n = 2 ^ 53 \/ n = - 2 ^ 53) by lia.
  destruct H as [-> | ->]; vm_compute; reflexivity.
Qed.

Lemma js_add_exact (a b : Z) :
  Z.abs a + Z.abs b <= 2 ^ 53 -> js_add a b = a + b.
Proof.
  intros H. unfold js_add.
  assert (Hbig : 2 ^ 53 < infinity) by (vm_compute; reflexivity).
  destruct (Z.eqb_spec (Z.abs a) infinity); [lia|].
  destruct (Z.eqb_spec (Z.abs b) infinity); [lia|].
  apply to_double_exact. lia.
Qed.

Lemma fold_js_add_safe (l : list Z) (acc : Z) :
  Z.abs acc + total (map Z.abs l) <= 2 ^ 53 ->
  fold_left js_add l acc = acc + total l.
Proof.
  revert acc. induction l as [|x l IH]; cbn [fold_left map total fold_right];
    intros acc Hsafe.
  - lia.
  - fold (total (map Z.abs l)) in Hsafe. fold (total l).
    assert (Hl : 0 <= total (map Z.abs l)).
    { clear. induction l as [|y l IH]; cbn; [lia|].
      fold (total (map Z.abs l)). lia. }
    rewrite js_add_exact by lia.
    rewrite IH by lia. lia.
Qed.

(** Past the largest double the sum is [Infinity], and stays so. *)
Example js_total_overflows :
  js_total [(2 ^ 53 - 1) * 2 ^ 971; (2 ^ 53 - 1) * 2 ^ 971;
            - ((2 ^ 53 - 1) * 2 ^ 971); - ((2 ^ 53 - 1) * 2 ^ 971)]
  = infinity.
Proof. vm_compute. reflexivity. Qed.

(** Within the safe range the sum of the routes is the plain sum. *)
Lemma js_total_safe (l : list Z) : safe l -> js_total l = total l.
Proof.
  intros Hsafe. unfold js_total. rewrite fold_js_add_safe; [lia|].
  unfold safe in Hsafe. lia.
Qed.

Lemma sum_by_js_total {A : Type} (f : A -> Z) (l : list A) :
  sum_by f l = js_total (map f l).
Proof.
  unfold sum_by, js_total. generalize 0 as acc.
  induction l as [|x l IH]; cbn [fold_left map]; intros acc; auto.
Qed.

Lemma total_insert_by_order (g : Question.t -> Z) (q : Question.t)
  (l : list Question.t) :
  total (map g (insert_by_order q l)) = g q + total (map g l).
Proof.
  induction l as [|q' l IH]; simpl; auto.
  destruct (Question.order q <=? Question.order q'); simpl; lia.
Qed.

Lemma total_sort_by_order (g : Question.t -> Z) (l : list Question.t) :
  total (map g (sort_by_order l)) = total (map g l).
Proof.
  induction l as [|q l IH]; simpl; auto.
  rewrite total_insert_by_order. lia.
Qed.

(** The [maxScore] computed by the start route is the sum, in numbers, of
    the points of the exam's questions in their order. *)
Lemma maxScore_js_total (examId : Z) (s : MemStorage) :
  sum_by Question.points (getQuestionsByExam examId s) =
  js_total (points_in_order examId s).
Proof. apply sum_by_js_total. Qed.

Lemma points_in_order_total (examId : Z) (s : MemStorage) :
  total (points_in_order examId s) = total (points_of examId s).
Proof.
  unfold points_in_order, points_of, getQuestionsByExam.
  apply total_sort_by_order.
Qed.

Lemma points_in_order_safe (examId : Z) (s : MemStorage) :
  safe (points_of examId s) -> safe (points_in_order examId s).
Proof.
  unfold safe, points_in_order, points_of, getQuestionsByExam.
  rewrite !map_map.
  now rewrite (total_sort_by_order (fun q => Z.abs (Question.points q))).
Qed.

Lemma attempt_score_total (attemptId : Z) (s : MemStorage) :
  sum_by (fun a => or_zero (Answer.score a)) (getAnswersByAttempt attemptId s)
  = js_total (scores_of attemptId s).
Proof. unfold getAnswersByAttempt, scores_of. apply sum_by_js_total. Qed.

(** ** The invariants hold in every reachable store *)

Lemma newMemStorage_ok (now : Z) : store_ok (newMemStorage now).
Proof.
  split; simpl.
  - split; constructor.
  - split; constructor.
  - constructor.
  - intros a b [].
Qed.

Lemma store_ok_same (s s' : MemStorage) :
  answers s' = answers s -> examAttempts s' = examAttempts s ->
  attemptIdCounter s' = attemptIdCounter s ->
  store_ok s -> store_ok s'.
Proof.
  intros Ha Ht Hc [H1 H2 H3 H4].
  split; rewrite ?Ha, ?Ht, ?Hc; assumption.
Qed.

Lemma updateAnswer_ok (id : Z) (d : PartialAnswer.t) (s : MemStorage) :
  store_ok s -> store_ok (snd (updateAnswer id d s)).
Proof.
  intros Hok. unfold updateAnswer.
  destruct (JsMap.get id (answers s)) as [answer|] eqn:E; simpl; auto.
  destruct Hok as [H1 H2 H3 H4]. split; simpl; auto.
  apply keyed_set; auto. simpl. eapply keyed_get_id; eauto.
Qed.

Lemma createAnswer_ok (d : InsertAnswer.t) (s : MemStorage) :
  store_ok s -> store_ok (snd (createAnswer d s)).
Proof.
  intros [H1 H2 H3 H4]. split; simpl; auto.
  now apply keyed_set.
Qed.

Lemma updateExamAttempt_ok (id : Z) (d : PartialExamAttempt.t)
  (s : MemStorage) :
  PartialExamAttempt.completedAt d <> Some None ->
  store_ok s -> store_ok (snd (updateExamAttempt id d s)).
Proof.
  intros Hd Hok. unfold updateExamAttempt.
  destruct (JsMap.get id (examAttempts s)) as [attempt|] eqn:E; simpl; auto.
  destruct Hok as [H1 H2 H3 H4]. split; simpl; auto.
  - apply keyed_set; auto. simpl. eapply keyed_get_id; eauto.
  - apply below_set; auto. congruence.
  - assert (Hid : ExamAttempt.id attempt = id)
      by (eapply keyed_get_id; eauto).
    assert (Hin : In attempt (JsMap.values (examAttempts s)))
      by (eapply get_in_values; eauto).
    set (new := PartialExamAttempt.apply d attempt).
    assert (Hnone : ExamAttempt.completedAt new = None ->
                    ExamAttempt.completedAt attempt = None).
    { subst new. simpl. destruct (PartialExamAttempt.completedAt d) as [[|]|];
        simpl; congruence. }
    intros a b Ha Hb Hu He Hca Hcb.
    apply in_values_set in Ha. apply in_values_set in Hb.
    destruct Ha as [->|Ha], Hb as [->|Hb]; auto.
    + change (ExamAttempt.id attempt = ExamAttempt.id b).
      apply H4; auto.
    + change (ExamAttempt.id a = ExamAttempt.id attempt).
      apply H4; auto.
Qed.

Lemma createExamAttempt_ok (now : Z) (d : InsertExamAttempt.t)
  (s : MemStorage) :
  (forall a, In a (JsMap.values (examAttempts s)) ->
             ExamAttempt.userId a = InsertExamAttempt.userId d ->
             ExamAttempt.examId a = InsertExamAttempt.examId d ->
             ExamAttempt.completedAt a <> None) ->
  store_ok s -> store_ok (snd (createExamAttempt now d s)).
Proof.
  intros Hfree [H1 H2 H3 H4]. split; simpl; auto.
  - now apply keyed_set.
  - now apply below_set_next.
  - intros a b Ha Hb Hu He Hca Hcb.
    apply in_values_set in Ha. apply in_values_set in Hb.
    destruct Ha as [->|Ha], Hb as [->|Hb]; auto.
    + simpl in Hu, He. exfalso. eapply (Hfree b); eauto.
    + simpl in Hu, He. exfalso. eapply (Hfree a); eauto.
Qed.

Ltac break_match :=
  match goal with
  | |- context [match ?x with _ => _ end] =>
      match type of x with
      | sumbool _ _ => destruct x
      | _ => destruct x eqn:?
      end
  end.

Ltac ok_same :=
  solve [ assumption
        | eapply store_ok_same; [| | |eassumption]; reflexivity ].

Lemma gradeStored_ok (answerId questionId : Z) (answerText : string)
  (s : MemStorage) :
  store_ok s -> store_ok (gradeStored answerId questionId answerText s).
Proof.
  intros Hok. unfold gradeStored.
  destruct (getQuestion questionId s) as [question|]; auto.
  destruct (negb _); auto.
  destruct (autoGrade question answerText). now apply updateAnswer_ok.
Qed.

Lemma postAttempt_ok (now : Z) (user : User.t) (examId : Z)
  (s : MemStorage) :
  store_ok s -> store_ok (snd (postAttempt now user examId s)).
Proof.
  intros Hok. unfold postAttempt.
  destruct (getExam examId s) as [exam|]; cbn; auto.
  destruct (negb _); cbn; auto.
  destruct (find _ _) as [a|] eqn:Hfind; cbn; auto.
  destruct (negb (insertExamAttemptSchema _)); cbn; auto.
  apply createExamAttempt_ok; auto. cbn.
  intros a Hin Hu He Hc.
  eapply find_none with (x := a) in Hfind.
  - unfold inProgressFor in Hfind.
    rewrite He, Hc, Z.eqb_refl in Hfind. discriminate.
  - unfold getExamAttemptsByUser. apply filter_In. split; auto.
    now apply Z.eqb_eq.
Qed.

Lemma putAttemptComplete_ok (now : Z) (user : User.t) (attemptId : Z)
  (s : MemStorage) :
  store_ok s -> store_ok (snd (putAttemptComplete now user attemptId s)).
Proof.
  intros Hok. unfold putAttemptComplete.
  destruct (getExamAttempt attemptId s) as [attempt|]; cbn; auto.
  destruct (negb _); cbn; auto.
  destruct (ExamAttempt.completedAt attempt); cbn; auto.
  match goal with
  | |- context [updateExamAttempt ?i ?d ?st] =>
      pose proof (updateExamAttempt_ok i d st) as H;
      destruct (updateExamAttempt i d st)
  end.
  cbn in *. apply H; auto. discriminate.
Qed.

Lemma postAnswer_ok (user : User.t) (attemptId questionId : Z)
  (answerText : string) (s : MemStorage) :
  store_ok s ->
  store_ok (snd (postAnswer user attemptId questionId answerText s)).
Proof.
  intros Hok. unfold postAnswer.
  destruct (getExamAttempt attemptId s) as [attempt|]; cbn; auto.
  destruct (negb _); cbn; auto.
  destruct (ExamAttempt.completedAt attempt); cbn; auto.
  destruct (find _ _) as [existing|]; cbn.
  - match goal with
    | |- context [updateAnswer ?i ?d ?st] =>
        pose proof (updateAnswer_ok i d st Hok) as H;
        destruct (updateAnswer i d st)
    end.
    cbn in *. now apply gradeStored_ok.
  - apply gradeStored_ok. now apply createAnswer_ok.
Qed.

Lemma putAnswerGrade_ok (user : User.t) (answerId : Z) (score : option Z)
  (isCorrect : bool) (s : MemStorage) :
  store_ok s ->
  store_ok (snd (putAnswerGrade user answerId score isCorrect s)).
Proof.
  intros Hok. unfold putAnswerGrade.
  repeat (break_match; cbn; auto).
  match goal with
  | H : updateAnswer ?i ?d ?st = _ |- _ =>
      pose proof (updateAnswer_ok i d st Hok) as H1; rewrite H in H1
  end.
  match goal with
  | H : updateExamAttempt ?i ?d ?st = _ |- _ =>
      pose proof (updateExamAttempt_ok i d st) as H2; rewrite H in H2
  end.
  cbn in *. apply H2; auto. discriminate.
Qed.

Lemma updateGradingRequest_ok (id : Z) (d : PartialGradingRequest.t)
  (s : MemStorage) :
  store_ok s -> store_ok (snd (updateGradingRequest id d s)).
Proof.
  intros Hok. unfold updateGradingRequest.
  destruct (JsMap.get id (gradingRequests s)); cbn; ok_same.
Qed.

Lemma putGradingRequest_ok (now : Z) (user : User.t) (requestId : Z)
  (status : string) (comment : option string) (score : option Z)
  (s : MemStorage) :
  store_ok s ->
  store_ok
    (snd (putGradingRequest now user requestId status comment score s)).
Proof.
  intros Hok. unfold putGradingRequest.
  destruct (getGradingRequest requestId s); cbn; auto.
  destruct (getAnswer _ s); cbn; auto.
  destruct (getExamAttempt _ s); cbn; auto.
  destruct (getExam _ s); cbn; auto.
  destruct (negb (_ =? _)); cbn; auto.
  destruct (negb (_ || _)); cbn; auto.
  match goal with
  | |- context [updateGradingRequest ?i ?d ?st] =>
      pose proof (updateGradingRequest_ok i d st Hok) as H0;
      destruct (updateGradingRequest i d st) as [r0 s1]
  end.
  cbn in H0.
  repeat (break_match; cbn; auto).
  match goal with
  | H : updateAnswer ?i ?d ?st = _ |- _ =>
      pose proof (updateAnswer_ok i d st H0) as H1; rewrite H in H1
  end.
  match goal with
  | H : updateExamAttempt ?i ?d ?st = _ |- _ =>
      pose proof (updateExamAttempt_ok i d st) as H2; rewrite H in H2
  end.
  cbn in *. apply H2; auto. discriminate.
Qed.

Ltac ok_frame :=
  repeat (break_match; cbn [snd]; auto);
  repeat match goal with
         | H : match ?x with _ => _ end = (_, _) |- _ => destruct x eqn:?
         | H : (_, _) = (_, _) |- _ => injection H as <- <-
         end;
  ok_same.

Lemma handle_ok (r : Request) (s : MemStorage) :
  store_ok s -> store_ok (handle r s).
Proof.
  intros Hok. destruct r; cbn [handle].
  - unfold postRegister, createUser. ok_frame.
  - unfold postExam, createExam. ok_frame.
  - unfold putExam, updateExam. ok_frame.
  - unfold deleteExamRoute, deleteExam. ok_frame.
  - unfold postQuestion, createQuestion. ok_frame.
  - unfold putQuestion, updateQuestion. ok_frame.
  - unfold deleteQuestionRoute, deleteQuestion. ok_frame.
  - now apply postAttempt_ok.
  - now apply putAttemptComplete_ok.
  - now apply postAnswer_ok.
  - now apply putAnswerGrade_ok.
  - unfold postGradingRequest, createGradingRequest. ok_frame.
  - now apply putGradingRequest_ok.
Qed.

Lemma reachable_ok (s : MemStorage) : reachable s -> store_ok s.
Proof.
  induction 1; [apply newMemStorage_ok | now apply handle_ok].
Qed.

Lemma reachable_run (rs : list Request) (s : MemStorage) :
  reachable s -> reachable (run rs s).
Proof.
  unfold run. revert s.
  induction rs as [|r rs IH]; cbn; intros s H; auto.
  apply IH. now constructor.
Qed.

Lemma session_store_reachable : reachable session_store.
Proof. apply reachable_run. constructor. Qed.

Lemma same_id (a b : Z) : a = b -> negb (a =? b) = false.
Proof. intros ->. now rewrite Z.eqb_refl. Qed.

(** ** Completion *)

Lemma putAttemptComplete_open (now : Z) (user : User.t) (attemptId : Z)
  (s : MemStorage) (attempt : ExamAttempt.t) :
  getExamAttempt attemptId s = Some attempt ->
  ExamAttempt.userId attempt = User.id user ->
  ExamAttempt.completedAt attempt = None ->
  let completed :=
    ExamAttempt.mk (ExamAttempt.id attempt) (ExamAttempt.examId attempt)
      (ExamAttempt.userId attempt) (ExamAttempt.startedAt attempt)
      (Some now) (Some (js_total (scores_of attemptId s)))
      (ExamAttempt.maxScore attempt)
      (Some ((now - ExamAttempt.startedAt attempt) / 1000)) in
  putAttemptComplete now user attemptId s =
  (Sent 200 (Some completed),
   with_examAttempts (JsMap.set attemptId completed (examAttempts s)) s).
Proof.
  intros Hget Huser Hopen completed.
  unfold putAttemptComplete. rewrite Hget, (same_id _ _ Huser), Hopen.
  rewrite attempt_score_total.
  unfold updateExamAttempt. unfold getExamAttempt in Hget. rewrite Hget.
  reflexivity.
Qed.


(** ** Answer submission *)

(** An answer found among the answers of an attempt sits under its own
    [id] in a well-formed store. *)
Lemma found_answer_stored (f : Answer.t -> bool) (attemptId : Z)
  (s : MemStorage) (e : Answer.t) :
  store_ok s ->
  find f (getAnswersByAttempt attemptId s) = Some e ->
  getAnswer (Answer.id e) s = Some e /\ Answer.attemptId e = attemptId.
Proof.
  intros Hok Hfind. apply find_some in Hfind as [Hin _].
  unfold getAnswersByAttempt in Hin. apply filter_In in Hin as [Hin Ha].
  split; [|now apply Z.eqb_eq].
  unfold getAnswer. apply keyed_in_get; auto. apply Hok.
Qed.

Lemma gradeStored_get (answerId questionId : Z) (answerText : string)
  (s : MemStorage) (a : Answer.t) (question : Question.t) :
  getAnswer answerId s = Some a ->
  getQuestion questionId s = Some question ->
  getAnswer answerId (gradeStored answerId questionId answerText s) =
  Some (graded question answerText a).
Proof.
  intros Ha Hq. unfold gradeStored, graded. rewrite Hq.
  destruct (Question.type question =? "essay")%string; cbn [negb]; auto.
  destruct (autoGrade question answerText) as [c n]. cbn [fst snd].
  unfold updateAnswer. unfold getAnswer in Ha. rewrite Ha. cbn [snd].
  unfold getAnswer. cbn [answers with_answers]. rewrite get_set_eq.
  reflexivity.
Qed.

Lemma gradeStored_frame (answerId questionId : Z) (answerText : string)
  (s : MemStorage) :
  let s' := gradeStored answerId questionId answerText s in
  examAttempts s' = examAttempts s /\ questions s' = questions s /\
  gradingRequests s' = gradingRequests s /\ exams s' = exams s.
Proof.
  unfold gradeStored. destruct (getQuestion questionId s); auto.
  destruct (negb _); auto. destruct (autoGrade _ _).
  unfold updateAnswer. destruct (JsMap.get _ _); cbn; auto.
Qed.

Lemma postAnswer_new (user : User.t) (attemptId questionId : Z)
  (answerText : string) (s : MemStorage) (attempt : ExamAttempt.t) :
  getExamAttempt attemptId s = Some attempt ->
  ExamAttempt.userId attempt = User.id user ->
  ExamAttempt.completedAt attempt = None ->
  find (fun a => Answer.questionId a =? questionId)
    (getAnswersByAttempt attemptId s) = None ->
  postAnswer user attemptId questionId answerText s =
  (Sent 201
     (Some (Answer.mk (answerIdCounter s) attemptId questionId answerText
              None None false)),
   gradeStored (answerIdCounter s) questionId answerText
     (snd (createAnswer (InsertAnswer.mk attemptId questionId answerText) s))).
Proof.
  intros Hget Huser Hopen Hfind. unfold postAnswer.
  rewrite Hget, (same_id _ _ Huser), Hopen.
  cbn [InsertAnswer.questionId InsertAnswer.answer]. rewrite Hfind.
  reflexivity.
Qed.

Lemma postAnswer_existing (user : User.t) (attemptId questionId : Z)
  (answerText : string) (s : MemStorage) (attempt : ExamAttempt.t)
  (existing : Answer.t) :
  store_ok s ->
  getExamAttempt attemptId s = Some attempt ->
  ExamAttempt.userId attempt = User.id user ->
  ExamAttempt.completedAt attempt = None ->
  find (fun a => Answer.questionId a =? questionId)
    (getAnswersByAttempt attemptId s) = Some existing ->
  let updated :=
    Answer.mk (Answer.id existing) (Answer.attemptId existing)
      (Answer.questionId existing) answerText (Answer.isCorrect existing)
      (Answer.score existing) (Answer.manuallyGraded existing) in
  postAnswer user attemptId questionId answerText s =
  (Sent 200 (Some updated),
   gradeStored (Answer.id existing) questionId answerText
     (with_answers (JsMap.set (Answer.id existing) updated (answers s)) s)).
Proof.
  intros Hok Hget Huser Hopen Hfind updated. unfold postAnswer.
  rewrite Hget, (same_id _ _ Huser), Hopen.
  cbn [InsertAnswer.questionId InsertAnswer.answer]. rewrite Hfind.
  destruct (found_answer_stored _ _ _ _ Hok Hfind) as [Hstored _].
  unfold updateAnswer. unfold getAnswer in Hstored. rewrite Hstored.
  reflexivity.
Qed.


(** C3, as the code has it.  For an attempt in progress of the caller and a
    question of the store, the submission route never fails, and the answer
    it leaves in the store has the submitted text and
    - for a [multiple_choice] or [true_false] question, [isCorrect] equal
      to the strict equality of the text and the question's
      [correctAnswer], and [score] equal to the points when correct and 0
      otherwise;
    - for an [essay] question, the [isCorrect] and [score] it had before
      the call, which are null for a first submission;
    - for a question of any other type, [isCorrect = false] and
      [score = 0]: it is graded as a wrong answer, not left ungraded. *)
Theorem C3_grading_on_submission (user : User.t) (attemptId questionId : Z)
  (answerText : string) (s : MemStorage) (attempt : ExamAttempt.t)
  (question : Question.t) :
  reachable s ->
  getExamAttempt attemptId s = Some attempt ->
  ExamAttempt.userId attempt = User.id user ->
  ExamAttempt.completedAt attempt = None ->
  getQuestion questionId s = Some question ->
  let previous :=
    find (fun a => Answer.questionId a =? questionId)
      (getAnswersByAttempt attemptId s) in
  let correct :=
    strict_eq_string answerText (Question.correctAnswer question) in
  exists (code : Z) (sent stored : Answer.t) (s' : MemStorage),
    postAnswer user attemptId questionId answerText s
    = (Sent code (Some sent), s') /\
    getAnswer (Answer.id sent) s' = Some stored /\
    Answer.answer stored = answerText /\
    (Question.type question = "multiple_choice"
     \/ Question.type question = "true_false" ->
     Answer.isCorrect stored = Some correct /\
     Answer.score stored
     = Some (if correct then Question.points question else 0)) /\
    (Question.type question = "essay" ->
     Answer.isCorrect stored
     = match previous with Some a => Answer.isCorrect a | None => None end /\
     Answer.score stored
     = match previous with Some a => Answer.score a | None => None end) /\
    (Question.type question <> "multiple_choice" ->
     Question.type question <> "true_false" ->
     Question.type question <> "essay" ->
     Answer.isCorrect stored = Some false /\ Answer.score stored = Some 0).
Proof.
  intros Hreach Hget Huser Hopen Hq previous correct.
  apply reachable_ok in Hreach.
  assert (Hgrade : forall a,
    Answer.answer (graded question answerText a) = Answer.answer a /\
    (Question.type question = "multiple_choice"
     \/ Question.type question = "true_false" ->
     Answer.isCorrect (graded question answerText a) = Some correct /\
     Answer.score (graded question answerText a)
     = Some (if correct then Question.points question else 0)) /\
    (Question.type question = "essay" ->
     graded question answerText a = a) /\
    (Question.type question <> "multiple_choice" ->
     Question.type question <> "true_false" ->
     Question.type question <> "essay" ->
     Answer.isCorrect (graded question answerText a) = Some false /\
     Answer.score (graded question answerText a) = Some 0)).
  { intros a. unfold graded, autoGrade. repeat split.
    - destruct (Question.type question =? "essay")%string; reflexivity.
    - destruct H as [-> | ->]; reflexivity.
    - destruct H as [-> | ->]; reflexivity.
    - intros ->. reflexivity.
    - apply String.eqb_neq in H, H0, H1. now rewrite H, H0, H1.
    - apply String.eqb_neq in H, H0, H1. now rewrite H, H0, H1. }
  destruct previous as [before|] eqn:Hprev; subst previous.
  - rewrite (postAnswer_existing user attemptId questionId answerText s
               attempt before Hreach Hget Huser Hopen Hprev).
    do 4 eexists. split; [reflexivity|]. cbn [Answer.id].
    split.
    { apply gradeStored_get; [|exact Hq].
      unfold getAnswer. cbn [answers with_answers]. apply get_set_eq. }
    destruct (Hgrade
      (Answer.mk (Answer.id before) (Answer.attemptId before)
         (Answer.questionId before) answerText (Answer.isCorrect before)
         (Answer.score before) (Answer.manuallyGraded before)))
      as (H1 & H2 & H3 & H4).
    split; [exact H1|]. split; [exact H2|]. split; [|exact H4].
    intros He. rewrite (H3 He). auto.
  - rewrite (postAnswer_new user attemptId questionId answerText s attempt
               Hget Huser Hopen Hprev).
    do 4 eexists. split; [reflexivity|]. cbn [Answer.id].
    split.
    { apply gradeStored_get; [|exact Hq].
      unfold getAnswer, createAnswer. cbn. apply get_set_eq. }
    destruct (Hgrade
      (Answer.mk (answerIdCounter s) attemptId questionId answerText None
         None false)) as (H1 & H2 & H3 & H4).
    split; [exact H1|]. split; [exact H2|]. split; [|exact H4].
    intros He. rewrite (H3 He). auto.
Qed.

(** ** The lifecycle of an attempt *)

(** C6.  Completion is one way.  On a completed attempt every completion
    call and every answer submission fails and leaves the store as it is;
    for the owner of the attempt the failure is 400 "Attempt already
    completed" (the invalid-state error).  On an attempt in progress the
    owner's completion call succeeds, and after it a second completion
    call and every answer submission fail in that way. *)
Theorem C6_one_way_lifecycle (attemptId : Z) (s : MemStorage)
  (attempt : ExamAttempt.t) :
  getExamAttempt attemptId s = Some attempt ->
  (ExamAttempt.completedAt attempt <> None ->
   (forall now user,
       exists code message,
         putAttemptComplete now user attemptId s = (Failed code message, s)) /\
   (forall user questionId answerText,
       exists code message,
         postAnswer user attemptId questionId answerText s
         = (Failed code message, s)) /\
   (forall user,
       ExamAttempt.userId attempt = User.id user ->
       (forall now,
           putAttemptComplete now user attemptId s
           = (Failed 400 "Attempt already completed", s)) /\
       (forall questionId answerText,
           postAnswer user attemptId questionId answerText s
           = (Failed 400 "Attempt already completed", s)))) /\
  (ExamAttempt.completedAt attempt = None ->
   forall user now,
     ExamAttempt.userId attempt = User.id user ->
     exists completed s1,
       putAttemptComplete now user attemptId s
       = (Sent 200 (Some completed), s1) /\
       (forall now',
           putAttemptComplete now' user attemptId s1
           = (Failed 400 "Attempt already completed", s1)) /\
       (forall questionId answerText,
           postAnswer user attemptId questionId answerText s1
           = (Failed 400 "Attempt already completed", s1))).
Proof.
  intros Hget.
  assert (Hdone : forall st a user,
             getExamAttempt attemptId st = Some a ->
             ExamAttempt.completedAt a <> None ->
             ExamAttempt.userId a = User.id user ->
             (forall now,
                 putAttemptComplete now user attemptId st
                 = (Failed 400 "Attempt already completed", st)) /\
             (forall questionId answerText,
                 postAnswer user attemptId questionId answerText st
                 = (Failed 400 "Attempt already completed", st))).
  { intros st a user Ha Hc Hu. split; intros;
      unfold putAttemptComplete, postAnswer;
      rewrite Ha, (same_id _ _ Hu);
      destruct (ExamAttempt.completedAt a); [reflexivity|congruence
                                            |reflexivity|congruence]. }
  split.
  - intros Hc. split; [|split].
    + intros now user. unfold putAttemptComplete. rewrite Hget.
      destruct (negb _); [eauto|].
      destruct (ExamAttempt.completedAt attempt); [eauto|congruence].
    + intros user questionId answerText. unfold postAnswer. rewrite Hget.
      destruct (negb _); [eauto|].
      destruct (ExamAttempt.completedAt attempt); [eauto|congruence].
    + intros user Hu. now apply (Hdone s attempt).
  - intros Hopen user now Hu.
    rewrite (putAttemptComplete_open now user attemptId s attempt
               Hget Hu Hopen).
    do 2 eexists. split; [reflexivity|].
    eapply Hdone.
    + unfold getExamAttempt. cbn [examAttempts with_examAttempts].
      apply get_set_eq.
    + cbn. congruence.
    + exact Hu.
Qed.

(** ** Starting an attempt *)

Lemma find_hit {A : Type} (f : A -> bool) (l : list A) (x : A) :
  In x l -> f x = true -> exists y, find f l = Some y.
Proof.
  intros Hin Hf. destruct (find f l) eqn:E; eauto.
  rewrite (find_none _ _ E _ Hin) in Hf. discriminate.
Qed.

(** With an attempt in progress for the user and the exam, the start route
    sends that attempt and leaves the store as it is. *)
Lemma postAttempt_existing (now : Z) (user : User.t) (examId : Z)
  (s : MemStorage) (exam : Exam.t) (a : ExamAttempt.t) :
  store_ok s ->
  getExam examId s = Some exam ->
  Exam.status exam = "active" ->
  In a (JsMap.values (examAttempts s)) ->
  ExamAttempt.userId a = User.id user ->
  ExamAttempt.examId a = examId ->
  ExamAttempt.completedAt a = None ->
  postAttempt now user examId s = (Sent 200 a, s).
Proof.
  intros Hok Hexam Hactive Hin Hu He Hc. unfold postAttempt.
  rewrite Hexam, Hactive. cbn [String.eqb Ascii.eqb Bool.eqb negb].
  assert (Hfa : In a (getExamAttemptsByUser (User.id user) s)).
  { unfold getExamAttemptsByUser. apply filter_In. split; auto.
    now apply Z.eqb_eq. }
  destruct (find_hit (inProgressFor examId) _ a Hfa) as [b Hb].
  { unfold inProgressFor. rewrite He, Hc, Z.eqb_refl. reflexivity. }
  rewrite Hb. apply find_some in Hb as [Hinb Hpb].
  unfold getExamAttemptsByUser in Hinb. apply filter_In in Hinb as [Hinb Hub].
  apply Z.eqb_eq in Hub. apply andb_prop in Hpb as [Heb Hcb].
  apply Z.eqb_eq in Heb.
  assert (Hcb' : ExamAttempt.completedAt b = None)
    by (destruct (ExamAttempt.completedAt b); [discriminate|reflexivity]).
  assert (Hid : ExamAttempt.id b = ExamAttempt.id a).
  { apply (ok_in_progress s Hok); auto; congruence. }
  pose proof (keyed_in_get ExamAttempt.id _ a (ok_attempts s Hok) Hin) as Ha.
  pose proof (keyed_in_get ExamAttempt.id _ b (ok_attempts s Hok) Hinb) as Hb.
  rewrite Hid in Hb. congruence.
Qed.

(** Without one, it makes a new attempt whose [maxScore] is what the
    [reduce] over the exam's questions gives, if the schema takes it. *)
Lemma postAttempt_new (now : Z) (user : User.t) (examId : Z)
  (s : MemStorage) (exam : Exam.t) :
  getExam examId s = Some exam ->
  Exam.status exam = "active" ->
  find (inProgressFor examId) (getExamAttemptsByUser (User.id user) s)
  = None ->
  insertExamAttemptSchema
    (InsertExamAttempt.mk examId (User.id user)
       (js_total (points_in_order examId s))) = true ->
  let attempt :=
    ExamAttempt.mk (attemptIdCounter s) examId (User.id user) now None None
      (js_total (points_in_order examId s)) None in
  postAttempt now user examId s =
  (Sent 201 attempt,
   snd (createExamAttempt now
          (InsertExamAttempt.mk examId (User.id user)
             (js_total (points_in_order examId s))) s)).
Proof.
  intros Hexam Hactive Hfind Hparse attempt. unfold postAttempt.
  rewrite Hexam, Hactive. cbn [String.eqb Ascii.eqb Bool.eqb negb].
  rewrite Hfind, maxScore_js_total, Hparse. reflexivity.
Qed.

(** And if the schema refuses the data, the route answers 400 and leaves
    the store as it is. *)
Lemma postAttempt_refused (now : Z) (user : User.t) (examId : Z)
  (s : MemStorage) (exam : Exam.t) :
  getExam examId s = Some exam ->
  Exam.status exam = "active" ->
  find (inProgressFor examId) (getExamAttemptsByUser (User.id user) s)
  = None ->
  insertExamAttemptSchema
    (InsertExamAttempt.mk examId (User.id user)
       (js_total (points_in_order examId s))) = false ->
  postAttempt now user examId s = (Failed 400 "Invalid input data", s).
Proof.
  intros Hexam Hactive Hfind Hparse. unfold postAttempt.
  rewrite Hexam, Hactive. cbn [String.eqb Ascii.eqb Bool.eqb negb].
  rewrite Hfind, maxScore_js_total, Hparse. reflexivity.
Qed.

Lemma postAttempt_new_stored (now : Z) (user : User.t) (examId : Z)
  (s : MemStorage) :
  store_ok s ->
  find (inProgressFor examId) (getExamAttemptsByUser (User.id user) s)
  = None ->
  let d :=
    InsertExamAttempt.mk examId (User.id user)
      (js_total (points_in_order examId s)) in
  store_ok (snd (createExamAttempt now d s)) /\
  getExamAttempt (attemptIdCounter s) (snd (createExamAttempt now d s))
  = Some (ExamAttempt.mk (attemptIdCounter s) examId (User.id user) now None
            None (js_total (points_in_order examId s)) None).
Proof.
  intros Hok Hfind d. split.
  - apply createExamAttempt_ok; auto. cbn. intros a Hin Hu He Hc.
    eapply find_none with (x := a) in Hfind.
    + unfold inProgressFor in Hfind.
      rewrite He, Hc, Z.eqb_refl in Hfind. discriminate.
    + unfold getExamAttemptsByUser. apply filter_In. split; auto.
      now apply Z.eqb_eq.
  - unfold getExamAttempt, createExamAttempt. cbn. apply get_set_eq.
Qed.


(** ** [maxScore] after creation *)

Lemma keeps_maxScore_refl (s : MemStorage) : keeps_maxScore s s.
Proof. intros id a H. eauto. Qed.

Lemma keeps_maxScore_trans (s1 s2 s3 : MemStorage) :
  keeps_maxScore s1 s2 -> keeps_maxScore s2 s3 -> keeps_maxScore s1 s3.
Proof.
  intros H12 H23 id a H.
  destruct (H12 id a H) as (a2 & H2 & E2).
  destruct (H23 id a2 H2) as (a3 & H3 & E3).
  exists a3. split; [assumption | congruence].
Qed.

Lemma keeps_maxScore_frame (s s' : MemStorage) :
  examAttempts s' = examAttempts s -> keeps_maxScore s s'.
Proof.
  intros E id a H. exists a. unfold getExamAttempt in *. now rewrite E.
Qed.

Lemma updateExamAttempt_keeps (id : Z) (d : PartialExamAttempt.t)
  (s : MemStorage) : keeps_maxScore s (snd (updateExamAttempt id d s)).
Proof.
  unfold updateExamAttempt.
  destruct (JsMap.get id (examAttempts s)) as [attempt|] eqn:E;
    cbn [snd]; [|apply keeps_maxScore_refl].
  intros k a H. unfold getExamAttempt in *.
  cbn [examAttempts with_examAttempts].
  destruct (Z.eq_dec id k) as [->|Hne].
  - rewrite get_set_eq. eexists. split; [reflexivity|].
    cbn. congruence.
  - rewrite get_set_ne by assumption. eauto.
Qed.

Lemma createExamAttempt_keeps (now : Z) (d : InsertExamAttempt.t)
  (s : MemStorage) :
  below (attemptIdCounter s) (examAttempts s) ->
  keeps_maxScore s (snd (createExamAttempt now d s)).
Proof.
  intros Hbelow k a H. unfold getExamAttempt, createExamAttempt in *.
  cbn [snd examAttempts].
  exists a. split; [|reflexivity].
  rewrite get_set_ne; auto.
  intros <-. rewrite (below_get_none _ _ Hbelow) in H. discriminate.
Qed.

Lemma updateAnswer_attempts (id : Z) (d : PartialAnswer.t) (s : MemStorage) :
  examAttempts (snd (updateAnswer id d s)) = examAttempts s.
Proof. unfold updateAnswer. now destruct (JsMap.get id (answers s)). Qed.

Lemma updateGradingRequest_attempts (id : Z) (d : PartialGradingRequest.t)
  (s : MemStorage) :
  examAttempts (snd (updateGradingRequest id d s)) = examAttempts s.
Proof.
  unfold updateGradingRequest.
  now destruct (JsMap.get id (gradingRequests s)).
Qed.

Ltac keeps_frame :=
  repeat (break_match; cbn [snd]; try apply keeps_maxScore_refl);
  repeat match goal with
         | H : match ?x with _ => _ end = (_, _) |- _ => destruct x eqn:?
         | H : (_, _) = (_, _) |- _ => injection H as <- <-
         end;
  solve [ apply keeps_maxScore_refl
        | apply keeps_maxScore_frame; reflexivity ].

Lemma handle_keeps_maxScore (r : Request) (s : MemStorage) :
  store_ok s -> keeps_maxScore s (handle r s).
Proof.
  intros Hok. destruct r; cbn [handle].
  - unfold postRegister, createUser. keeps_frame.
  - unfold postExam, createExam. keeps_frame.
  - unfold putExam, updateExam. keeps_frame.
  - unfold deleteExamRoute, deleteExam. keeps_frame.
  - unfold postQuestion, createQuestion. keeps_frame.
  - unfold putQuestion, updateQuestion. keeps_frame.
  - unfold deleteQuestionRoute, deleteQuestion. keeps_frame.
  - unfold postAttempt.
    destruct (getExam examId s); cbn [snd]; [|apply keeps_maxScore_refl].
    destruct (negb _); cbn [snd]; [apply keeps_maxScore_refl|].
    destruct (find _ _); cbn [snd]; [apply keeps_maxScore_refl|].
    destruct (negb (insertExamAttemptSchema _)); cbn [snd];
      [apply keeps_maxScore_refl|].
    match goal with
    | |- context [createExamAttempt ?n ?d ?st] =>
        pose proof (createExamAttempt_keeps n d st (ok_attempt_ids s Hok));
        destruct (createExamAttempt n d st)
    end.
    assumption.
  - unfold putAttemptComplete.
    destruct (getExamAttempt attemptId s) as [attempt|]; cbn [snd];
      [|apply keeps_maxScore_refl].
    destruct (negb _); cbn [snd]; [apply keeps_maxScore_refl|].
    destruct (ExamAttempt.completedAt attempt); cbn [snd];
      [apply keeps_maxScore_refl|].
    match goal with
    | |- context [updateExamAttempt ?i ?d ?st] =>
        pose proof (updateExamAttempt_keeps i d st);
        destruct (updateExamAttempt i d st)
    end.
    assumption.
  - apply keeps_maxScore_frame. unfold postAnswer.
    destruct (getExamAttempt attemptId s) as [attempt|]; cbn [snd]; auto.
    destruct (negb _); cbn [snd]; auto.
    destruct (ExamAttempt.completedAt attempt); cbn [snd]; auto.
    destruct (find _ _) as [existing|].
    + match goal with
      | |- context [updateAnswer ?i ?d ?st] =>
          pose proof (updateAnswer_attempts i d st) as H;
          destruct (updateAnswer i d st)
      end.
      cbn [snd] in *. rewrite <- H. apply gradeStored_frame.
    + destruct (createAnswer _ s) as [fresh s1] eqn:Hc. cbn [snd].
      match goal with
      | |- examAttempts (gradeStored ?i ?q ?t ?st) = _ =>
          destruct (gradeStored_frame i q t st) as [-> _]
      end.
      unfold createAnswer in Hc. now injection Hc as <- <-.
  - unfold putAnswerGrade.
    repeat (break_match; cbn [snd]; try apply keeps_maxScore_refl).
    match goal with
    | H : updateAnswer ?i ?d ?st = _ |- _ =>
        pose proof (updateAnswer_attempts i d st) as H1; rewrite H in H1
    end.
    match goal with
    | H : updateExamAttempt ?i ?d ?st = _ |- _ =>
        pose proof (updateExamAttempt_keeps i d st) as H2; rewrite H in H2
    end.
    cbn [snd] in *.
    eapply keeps_maxScore_trans; [|exact H2].
    now apply keeps_maxScore_frame.
  - unfold postGradingRequest, createGradingRequest. keeps_frame.
  - unfold putGradingRequest.
    destruct (getGradingRequest requestId s); cbn [snd];
      [|apply keeps_maxScore_refl].
    destruct (getAnswer _ s); cbn [snd]; [|apply keeps_maxScore_refl].
    destruct (getExamAttempt _ s); cbn [snd]; [|apply keeps_maxScore_refl].
    destruct (getExam _ s); cbn [snd]; [|apply keeps_maxScore_refl].
    destruct (negb (_ =? _)); cbn [snd]; [apply keeps_maxScore_refl|].
    destruct (negb (_ || _)); cbn [snd]; [apply keeps_maxScore_refl|].
    match goal with
    | |- context [updateGradingRequest ?i ?d ?st] =>
        pose proof (updateGradingRequest_attempts i d st) as H0;
        destruct (updateGradingRequest i d st) as [r0 s1]
    end.
    cbn [snd] in H0. apply keeps_maxScore_frame in H0.
    repeat (break_match; cbn [snd]; try exact H0).
    match goal with
    | H : updateAnswer ?i ?d ?st = _ |- _ =>
        pose proof (updateAnswer_attempts i d st) as H1; rewrite H in H1
    end.
    match goal with
    | H : updateExamAttempt ?i ?d ?st = _ |- _ =>
        pose proof (updateExamAttempt_keeps i d st) as H2; rewrite H in H2
    end.
    cbn [snd] in *.
    eapply keeps_maxScore_trans; [exact H0|].
    eapply keeps_maxScore_trans; [|exact H2].
    now apply keeps_maxScore_frame.
Qed.

Lemma run_keeps_maxScore (rs : list Request) (s : MemStorage) :
  store_ok s -> keeps_maxScore s (run rs s).
Proof.
  unfold run. revert s.
  induction rs as [|r rs IH]; cbn [fold_left]; intros s Hok.
  - apply keeps_maxScore_refl.
  - eapply keeps_maxScore_trans.
    + now apply handle_keeps_maxScore.
    + apply IH. now apply handle_ok.
Qed.


(** ** Resolving a grading request *)

(** Replacing one answer of an attempt replaces its score in the sum. *)
Lemma scores_replace (m : JsMap.t Answer.t) (k attemptId : Z)
  (old new : Answer.t) :
  JsMap.get k m = Some old ->
  Answer.attemptId old = attemptId ->
  Answer.attemptId new = attemptId ->
  total (map (fun a => or_zero (Answer.score a))
           (filter (fun a => Answer.attemptId a =? attemptId)
              (JsMap.values (JsMap.set k new m))))
  = total (map (fun a => or_zero (Answer.score a))
             (filter (fun a => Answer.attemptId a =? attemptId)
                (JsMap.values m)))
    - or_zero (Answer.score old) + or_zero (Answer.score new).
Proof.
  intros Hget Hold Hnew.
  destruct (set_split m k new old Hget) as (m1 & m2 & -> & ->).
  unfold JsMap.values.
  rewrite !map_app, !filter_app, !map_app, !total_app. cbn [map snd filter].
  rewrite Hold, Hnew, Z.eqb_refl. cbn [map total fold_right].
  fold (total (map (fun a => or_zero (Answer.score a))
                 (filter (fun a => Answer.attemptId a =? attemptId)
                    (map snd m2)))).
  lia.
Qed.


(** ** The worked session, step by step *)

Lemma session_store_attempt :
  getExamAttempt 1 session_store = Some session_attempt.
Proof. reflexivity. Qed.

Lemma session_store_answer : getAnswer 1 session_store = Some session_answer.
Proof. reflexivity. Qed.





(** C6 in the session: complete once, then neither complete nor submit. *)
Lemma C6_one_way_lifecycle_witness :
  exists completed s1,
    putAttemptComplete 61500 teacher 1 session_store
    = (Sent 200 (Some completed), s1) /\
    putAttemptComplete 70000 teacher 1 s1
    = (Failed 400 "Attempt already completed", s1) /\
    postAnswer teacher 1 2 "because" s1
    = (Failed 400 "Attempt already completed", s1).
Proof.
  destruct (C6_one_way_lifecycle 1 session_store session_attempt
              session_store_attempt) as [_ Hopen].
  destruct (Hopen eq_refl teacher 61500 eq_refl)
    as (completed & s1 & Hfirst & Hagain & Hsubmit).
  exists completed, s1. split; [exact Hfirst|]. split.
  - apply Hagain.
  - apply Hsubmit.
Defined.


(** C3 at the question of type [short_answer]: graded as wrong. *)
Lemma C3_grading_on_submission_witness :
  exists code sent stored s',
    postAnswer teacher 1 1 "blue" survey_store
    = (Sent code (Some sent), s') /\
    getAnswer (Answer.id sent) s' = Some stored /\
    Answer.answer stored = "blue" /\
    Answer.isCorrect stored = Some false /\ Answer.score stored = Some 0.
Proof.
  edestruct (C3_grading_on_submission teacher 1 1 "blue" survey_store)
    as (code & sent & stored & s' & Hpost & Hget & Htext & _ & _ & Hother).
  - apply reachable_run. constructor.
  - reflexivity.
  - reflexivity.
  - reflexivity.
  - reflexivity.
  - exists code, sent, stored, s'.
    split; [exact Hpost|]. split; [exact Hget|]. split; [exact Htext|].
    apply Hother; discriminate.
Defined.

(** ** Completion on scores 2, 0, 3 and an ungraded essay *)

Example quiz_scores :
  map Answer.score (getAnswersByAttempt 1 quiz_store)
  = [Some 2; Some 0; Some 3; None].
Proof. reflexivity. Qed.

Example quiz_completion :
  fst (putAttemptComplete 9999 teacher 1 quiz_store)
  = Sent 200 (Some (ExamAttempt.mk 1 1 1 1000 (Some 9999) (Some 5) 14
                      (Some 8))).
Proof. reflexivity. Qed.

(** ** Where the routes part from the specification *)




(** C3 fails for an unknown question type: the answer to a question of
    type [short_answer] is stored with [isCorrect = false] and [score = 0],
    not with both left null. *)
Lemma C3_unknown_type_counterexample :
  exists q stored,
    getQuestion 1 survey_store = Some q /\
    Question.type q = "short_answer" /\
    getAnswer 1 (snd (postAnswer teacher 1 1 "blue" survey_store))
    = Some stored /\
    Answer.isCorrect stored = Some false /\ Answer.score stored = Some 0 /\
    Answer.isCorrect stored <> None /\ Answer.score stored <> None.
Proof.
  do 2 eexists.
  split; [reflexivity|]. split; [reflexivity|]. split; [reflexivity|].
  repeat split; discriminate.
Qed.

(** C7 on the code: a resolution with a negative score is accepted, so a
    reachable store has a graded answer whose score is below 0, for a
    question worth 5 points. *)
Lemma C7_score_below_zero_reachable :
  reachable regraded_store /\
  exists a q,
    getAnswer 1 regraded_store = Some a /\
    getQuestion (Answer.questionId a) regraded_store = Some q /\
    Question.points q = 5 /\
    Answer.score a = Some (-3) /\
    ~ (0 <= -3 <= Question.points q).
Proof.
  split.
  - apply reachable_handle. exact session_store_reachable.
  - exists (Answer.mk 1 1 1 "2" (Some false) (Some (-3)) true).
    exists (Question.mk 1 1 "multiple_choice" "2 + 2 = ?" 5 1
              (JArray ["3"; "4"]) (JString "2")).
    split; [vm_compute; reflexivity|]. split; [vm_compute; reflexivity|].
    split; [reflexivity|]. split; [reflexivity|]. cbn. lia.
Qed.

(** C8 on the code: the resolution route takes an approved score of -3,
    answers 200 and stores the score, whereas the manual-grade route
    refuses the same score with 400 "Invalid score". *)
Lemma C8_negative_score_accepted :
  exists resolved s',
    putGradingRequest 3000 teacher 1 "approved" None (Some (-3)) session_store
    = (Sent 200 (Some resolved), s') /\
    getAnswer 1 s' = Some (Answer.mk 1 1 1 "2" (Some false) (Some (-3)) true) /\
    getExamAttempt 1 s'
    = Some (ExamAttempt.mk 1 1 1 1000 None (Some (-3)) 7 None) /\
    putAnswerGrade teacher 1 (Some (-3)) false session_store
    = (Failed 400 "Invalid score", session_store).
Proof.
  exists (GradingRequest.mk 1 1 2000 "approved" None (Some 3000)).
  exists (snd (putGradingRequest 3000 teacher 1 "approved" None (Some (-3))
                 session_store)).
  split; [|split; [|split]]; vm_compute; reflexivity.
Qed.

(** C9 on the code: the request is marked resolved before the score is
    checked.  An approved score of 7 for a question worth 5 is refused with
    400, and a resolution whose question has been deleted is refused with
    404, but in both stores the request is [approved] with [resolvedAt]
    set; the answer and the attempt are as before. *)
Lemma C9_failed_resolution_mutates :
  getGradingRequest 1 session_store
  = Some (GradingRequest.mk 1 1 2000 "pending" None None) /\
  (exists s',
      putGradingRequest 3000 teacher 1 "approved" None (Some 7) session_store
      = (Failed 400 "Score cannot exceed question points", s') /\
      getGradingRequest 1 s'
      = Some (GradingRequest.mk 1 1 2000 "approved" None (Some 3000)) /\
      answers s' = answers session_store /\
      examAttempts s' = examAttempts session_store) /\
  (exists s',
      putGradingRequest 3000 teacher 1 "approved" None (Some 4)
        (handle (DeleteQuestion teacher 1) session_store)
      = (Failed 404 "Question not found", s') /\
      getGradingRequest 1 s'
      = Some (GradingRequest.mk 1 1 2000 "approved" None (Some 3000))).
Proof.
  split; [vm_compute; reflexivity|]. split.
  - exists (snd (putGradingRequest 3000 teacher 1 "approved" None (Some 7)
                   session_store)).
    split; [|split; [|split]]; vm_compute; reflexivity.
  - exists (snd (putGradingRequest 3000 teacher 1 "approved" None (Some 4)
                   (handle (DeleteQuestion teacher 1) session_store))).
    split; vm_compute; reflexivity.
Qed.

(** ** The score bound without negative resolutions

    The bound of C7 is kept by every answer submission, every manual grade
    and every resolution whose score is not negative, as long as no
    question has negative points: the negative score of a resolution is
    the one way these routes break it. *)

Lemma autoGrade_bounds (question : Question.t) (answerText : string) :
  0 <= Question.points question ->
  0 <= snd (autoGrade question answerText) <= Question.points question.
Proof.
  intros Hp. unfold autoGrade.
  destruct (Question.type question =? "multiple_choice")%string;
    [|destruct (Question.type question =? "true_false")%string];
    cbn [snd]; try lia;
    destruct (strict_eq_string answerText (Question.correctAnswer question));
    lia.
Qed.

Lemma score_bounds_set (s s' : MemStorage) (k : Z) (new : Answer.t) :
  score_bounds s ->
  questions s' = questions s ->
  answers s' = JsMap.set k new (answers s) ->
  (forall q, getQuestion (Answer.questionId new) s = Some q ->
             match Answer.score new with
             | None => True
             | Some n => 0 <= n <= Question.points q
             end) ->
  score_bounds s'.
Proof.
  intros Hb Hq Ha Hnew a q Hin Hget.
  unfold getQuestion in Hget. rewrite Hq in Hget. rewrite Ha in Hin.
  apply in_values_set in Hin as [->|Hin].
  - apply Hnew. exact Hget.
  - apply Hb; assumption.
Qed.

Lemma score_bounds_same (s s' : MemStorage) :
  score_bounds s -> questions s' = questions s -> answers s' = answers s ->
  score_bounds s'.
Proof.
  intros Hb Hq Ha a q Hin Hget.
  unfold getQuestion in Hget. rewrite Hq in Hget. rewrite Ha in Hin.
  apply Hb; assumption.
Qed.

Lemma gradeStored_bounds (answerId questionId : Z) (answerText : string)
  (s : MemStorage) :
  points_nonneg s -> score_bounds s ->
  (forall a, getAnswer answerId s = Some a ->
             Answer.questionId a = questionId) ->
  score_bounds (gradeStored answerId questionId answerText s) /\
  questions (gradeStored answerId questionId answerText s) = questions s.
Proof.
  intros Hp Hb Hqid. unfold gradeStored.
  destruct (getQuestion questionId s) as [question|] eqn:Hq; auto.
  destruct (negb _); auto.
  destruct (autoGrade question answerText) as [c n] eqn:Hg.
  unfold updateAnswer.
  destruct (JsMap.get answerId (answers s)) as [a|] eqn:Ha; cbn [snd]; auto.
  split; [|reflexivity].
  eapply score_bounds_set; eauto; try reflexivity.
  cbn. rewrite (Hqid a Ha), Hq. intros q [= <-].
  pose proof (autoGrade_bounds question answerText (Hp _ _ Hq)) as Hn.
  rewrite Hg in Hn. exact Hn.
Qed.

Lemma postAnswer_bounds (user : User.t) (attemptId questionId : Z)
  (answerText : string) (s : MemStorage) :
  store_ok s -> points_nonneg s -> score_bounds s ->
  score_bounds (snd (postAnswer user attemptId questionId answerText s)) /\
  questions (snd (postAnswer user attemptId questionId answerText s))
  = questions s.
Proof.
  intros Hok Hp Hb. unfold postAnswer.
  destruct (getExamAttempt attemptId s) as [attempt|]; cbn [snd]; auto.
  destruct (negb _); cbn [snd]; auto.
  destruct (ExamAttempt.completedAt attempt); cbn [snd]; auto.
  cbn [InsertAnswer.questionId InsertAnswer.answer].
  destruct (find _ _) as [existing|] eqn:Hfind.
  - destruct (found_answer_stored _ _ _ _ Hok Hfind) as [Hstored _].
    pose proof (find_some _ _ Hfind) as [Hin Hqid].
    apply Z.eqb_eq in Hqid.
    unfold updateAnswer. unfold getAnswer in Hstored. rewrite Hstored.
    cbn [snd].
    match goal with
    | |- context [gradeStored ?i ?q ?t ?st] =>
        destruct (gradeStored_bounds i q t st) as [H1 H2]
    end; auto.
    + eapply score_bounds_set; eauto; try reflexivity. cbn.
      intros q Hq. apply (Hb existing q); auto.
      eapply get_in_values; eauto.
    + intros a. unfold getAnswer. cbn [answers with_answers].
      rewrite get_set_eq. intros [= <-]. exact Hqid.
  - unfold createAnswer. cbn [snd Answer.id].
    match goal with
    | |- context [gradeStored ?i ?q ?t ?st] =>
        destruct (gradeStored_bounds i q t st) as [H1 H2]
    end; auto.
    + eapply score_bounds_set; eauto; try reflexivity; cbn; auto.
    + intros a. unfold getAnswer. cbn [answers].
      rewrite get_set_eq. now intros [= <-].
Qed.

Lemma putAnswerGrade_bounds (user : User.t) (answerId : Z)
  (score : option Z) (isCorrect : bool) (s : MemStorage) :
  score_bounds s ->
  score_bounds (snd (putAnswerGrade user answerId score isCorrect s)) /\
  questions (snd (putAnswerGrade user answerId score isCorrect s))
  = questions s.
Proof.
  intros Hb. unfold putAnswerGrade.
  destruct (getAnswer answerId s) as [answer|] eqn:Ha; cbn [snd]; auto.
  destruct (getExamAttempt _ s) as [attempt|]; cbn [snd]; auto.
  destruct (getExam _ s); cbn [snd]; auto.
  destruct (negb _); cbn [snd]; auto.
  destruct score as [n|]; cbn [snd]; auto.
  destruct (n <? 0) eqn:Hneg; cbn [snd]; auto.
  destruct (getQuestion _ s) as [question|] eqn:Hq; cbn [snd]; auto.
  destruct (n >? Question.points question) eqn:Hgt; cbn [snd]; auto.
  unfold updateAnswer. unfold getAnswer in Ha. rewrite Ha.
  unfold updateExamAttempt. cbn [examAttempts with_answers].
  assert (Hnew : score_bounds
                   (with_answers
                      (JsMap.set answerId
                         (PartialAnswer.apply
                            (PartialAnswer.mk None (Some (Some isCorrect))
                               (Some (Some n)) (Some true)) answer)
                         (answers s)) s)).
  { eapply score_bounds_set; eauto; try reflexivity. cbn.
    rewrite Hq. intros q [= <-].
    apply Z.ltb_ge in Hneg. rewrite Z.gtb_ltb in Hgt. apply Z.ltb_ge in Hgt.
    lia. }
  destruct (JsMap.get (ExamAttempt.id attempt) (examAttempts s));
    cbn [snd]; split; auto.
Qed.

Lemma putGradingRequest_bounds (now : Z) (user : User.t) (requestId : Z)
  (status : string) (comment : option string) (score : option Z)
  (s : MemStorage) :
  store_ok s -> score_bounds s ->
  match score with Some n => 0 <= n | None => True end ->
  score_bounds
    (snd (putGradingRequest now user requestId status comment score s)) /\
  questions
    (snd (putGradingRequest now user requestId status comment score s))
  = questions s.
Proof.
  intros Hok Hb Hpos. unfold putGradingRequest.
  destruct (getGradingRequest requestId s) as [request|] eqn:Hr;
    cbn [snd]; auto.
  destruct (getAnswer _ s) as [answer|] eqn:Ha; cbn [snd]; auto.
  destruct (getExamAttempt _ s) as [attempt|]; cbn [snd]; auto.
  destruct (getExam _ s); cbn [snd]; auto.
  destruct (negb (_ =? _)); cbn [snd]; auto.
  destruct (negb (_ || _)); cbn [snd]; auto.
  unfold updateGradingRequest. unfold getGradingRequest in Hr. rewrite Hr.
  set (s1 := with_gradingRequests _ s).
  assert (Hb1 : score_bounds s1) by (eapply score_bounds_same; eauto).
  destruct (status =? "approved")%string; cbn [snd]; auto.
  destruct score as [n|]; cbn [snd]; auto.
  destruct (getQuestion (Answer.questionId answer) s1) as [question|] eqn:Hq;
    cbn [snd]; auto.
  destruct (n >? Question.points question) eqn:Hgt; cbn [snd]; auto.
  assert (Ha' : JsMap.get (Answer.id answer) (answers s1) = Some answer).
  { unfold getAnswer in Ha.
    rewrite (keyed_get_id Answer.id _ _ _ (ok_answers s Hok) Ha). exact Ha. }
  unfold updateAnswer. rewrite Ha'.
  unfold updateExamAttempt. cbn [examAttempts with_answers].
  set (s2 := with_answers _ s1).
  assert (Hb2 : score_bounds s2).
  { eapply score_bounds_set; eauto; try reflexivity.
    intros q Hq'.
    change (getQuestion (Answer.questionId answer) s1 = Some q) in Hq'.
    rewrite Hq in Hq'. injection Hq' as <-. cbn.
    rewrite Z.gtb_ltb in Hgt. apply Z.ltb_ge in Hgt. lia. }
  destruct (JsMap.get (ExamAttempt.id attempt) (examAttempts s1));
    cbn [snd]; split; auto.
Qed.

Lemma score_bounds_kept (r : Request) (s : MemStorage) :
  store_ok s -> points_nonneg s -> score_bounds s -> grading_step r ->
  score_bounds (handle r s) /\ points_nonneg (handle r s).
Proof.
  intros Hok Hp Hb Hstep.
  assert (Hq : forall s', questions s' = questions s -> points_nonneg s').
  { intros s' E k q. unfold getQuestion. rewrite E. apply Hp. }
  destruct r; cbn [grading_step] in Hstep; try contradiction; cbn [handle].
  - destruct (postAnswer_bounds user attemptId questionId answer s); auto.
  - destruct (putAnswerGrade_bounds user answerId score isCorrect s); auto.
  - destruct (putGradingRequest_bounds now user requestId status comment
                score s); auto.
Qed.

(** Answer submissions, manual grades and resolutions whose score is not
    negative keep every graded answer's score between 0 and the points of
    its question, in a store whose questions have no negative points. *)
Lemma score_bounds_run (rs : list Request) (s : MemStorage) :
  store_ok s -> points_nonneg s -> score_bounds s ->
  Forall grading_step rs ->
  score_bounds (run rs s).
Proof.
  unfold run. revert s.
  induction rs as [|r rs IH]; cbn [fold_left]; intros s Hok Hp Hb Hall; auto.
  inversion Hall as [|? ? Hr Hrs]; subst.
  destruct (score_bounds_kept r s Hok Hp Hb Hr) as [Hb' Hp'].
  apply IH; auto. now apply handle_ok.
Qed.

(** ** Failures of the resolution route

    A failed resolution either leaves the store as it was, or it is one of
    the two failures that come after the request has been updated (the
    question is missing, or the score exceeds its points), and then the
    store differs from the old one exactly in the request, now resolved
    as approved. *)
Lemma putGradingRequest_failure (now : Z) (user : User.t) (requestId : Z)
  (status : string) (comment : option string) (score : option Z)
  (s s' : MemStorage) (code : Z) (message : string) :
  putGradingRequest now user requestId status comment score s
  = (Failed code message, s') ->
  s' = s \/
  (exists request,
      getGradingRequest requestId s = Some request /\
      status = "approved" /\
      (message = "Question not found"
       \/ message = "Score cannot exceed question points") /\
      s' = with_gradingRequests
             (JsMap.set requestId
                (GradingRequest.mk (GradingRequest.id request)
                   (GradingRequest.answerId request)
                   (GradingRequest.requestedAt request) "approved" comment
                   (Some now))
                (gradingRequests s)) s).
Proof.
  unfold putGradingRequest.
  destruct (getGradingRequest requestId s) as [request|] eqn:Hr;
    [|intros [= _ _ <-]; auto].
  destruct (getAnswer _ s) as [answer|]; [|intros [= _ _ <-]; auto].
  destruct (getExamAttempt _ s) as [attempt|]; [|intros [= _ _ <-]; auto].
  destruct (getExam _ s); [|intros [= _ _ <-]; auto].
  destruct (negb (_ =? _)); [intros [= _ _ <-]; auto|].
  destruct (negb (_ || _)); [intros [= _ _ <-]; auto|].
  unfold updateGradingRequest. pose proof Hr as Hr'.
  unfold getGradingRequest in Hr'. rewrite Hr'.
  destruct (status =? "approved")%string eqn:Hs; [|discriminate].
  apply String.eqb_eq in Hs. subst status.
  destruct score as [n|]; [|discriminate].
  destruct (getQuestion _ _) as [question|].
  - destruct (n >? Question.points question).
    + intros [= _ <- <-]. right. exists request. auto.
    + unfold updateAnswer.
      destruct (JsMap.get (Answer.id answer) _);
        unfold updateExamAttempt;
        destruct (JsMap.get (ExamAttempt.id attempt) _); discriminate.
  - intros [= _ <- <-]. right. exists request. auto.
Qed.

(** ** The manual grade route *)



(** Whatever the manual grade route is given, it either fails and leaves
    the store as it was, or it succeeds and then the score is a number
    between 0 and the points of the question of the answer: all its checks
    come before its first write. *)
Theorem putAnswerGrade_checks_first (user : User.t) (answerId : Z)
  (score : option Z) (isCorrect : bool) (s : MemStorage) :
  (exists code message,
      putAnswerGrade user answerId score isCorrect s
      = (Failed code message, s)) \/
  (exists n answer question body s',
      putAnswerGrade user answerId score isCorrect s = (Sent 200 body, s') /\
      score = Some n /\
      getAnswer answerId s = Some answer /\
      getQuestion (Answer.questionId answer) s = Some question /\
      0 <= n <= Question.points question).
Proof.
  unfold putAnswerGrade.
  destruct (getAnswer answerId s) as [answer|] eqn:Ha; [|left; eauto].
  destruct (getExamAttempt _ s) as [attempt|]; [|left; eauto].
  destruct (getExam _ s); [|left; eauto].
  destruct (negb _); [left; eauto|].
  destruct score as [n|]; [|left; eauto].
  destruct (n <? 0) eqn:Hneg; [left; eauto|].
  destruct (getQuestion _ s) as [question|] eqn:Hq; [|left; eauto].
  destruct (n >? Question.points question) eqn:Hgt; [left; eauto|].
  right. exists n, answer, question.
  destruct (updateAnswer _ _ s) as [updated s1].
  destruct (updateExamAttempt _ _ s1) as [x s2].
  exists updated, s2. split; [reflexivity|]. split; [reflexivity|].
  split; [reflexivity|]. split; [exact Hq|].
  apply Z.ltb_ge in Hneg. rewrite Z.gtb_ltb in Hgt. apply Z.ltb_ge in Hgt.
  lia.
Qed.

(** ** Resolutions that carry no score *)

Lemma putGradingRequest_plain (now : Z) (user : User.t) (requestId : Z)
  (status : string) (comment : option string) (score : option Z)
  (s : MemStorage) (request : GradingRequest.t) (answer : Answer.t)
  (attempt : ExamAttempt.t) (exam : Exam.t) :
  getGradingRequest requestId s = Some request ->
  getAnswer (GradingRequest.answerId request) s = Some answer ->
  getExamAttempt (Answer.attemptId answer) s = Some attempt ->
  getExam (ExamAttempt.examId attempt) s = Some exam ->
  Exam.userId exam = User.id user ->
  status = "rejected" \/ (status = "approved" /\ score = None) ->
  putGradingRequest now user requestId status comment score s
  = (Sent 200
       (Some (GradingRequest.mk (GradingRequest.id request)
                (GradingRequest.answerId request)
                (GradingRequest.requestedAt request) status comment
                (Some now))),
     with_gradingRequests
       (JsMap.set requestId
          (GradingRequest.mk (GradingRequest.id request)
             (GradingRequest.answerId request)
             (GradingRequest.requestedAt request) status comment (Some now))
          (gradingRequests s)) s).
Proof.
  intros Hreq Hans Hatt Hexam Howner Hstatus. unfold putGradingRequest.
  rewrite Hreq, Hans, Hatt, Hexam, (same_id _ _ Howner).
  unfold updateGradingRequest. unfold getGradingRequest in Hreq.
  rewrite Hreq.
  destruct Hstatus as [-> | [-> ->]]; reflexivity.
Qed.

(** A resolution by the owning teacher that rejects, or that approves
    without a numeric score, succeeds whatever the status of the request
    was; it stores the new status, the comment of the body (also when there
    is none) and [resolvedAt = now] on the request and changes nothing
    else: the answers and the attempts are as before. *)
Theorem putGradingRequest_without_score (now : Z) (user : User.t)
  (requestId : Z) (status : string) (comment : option string)
  (score : option Z) (s : MemStorage) (request : GradingRequest.t)
  (answer : Answer.t) (attempt : ExamAttempt.t) (exam : Exam.t) :
  getGradingRequest requestId s = Some request ->
  getAnswer (GradingRequest.answerId request) s = Some answer ->
  getExamAttempt (Answer.attemptId answer) s = Some attempt ->
  getExam (ExamAttempt.examId attempt) s = Some exam ->
  Exam.userId exam = User.id user ->
  status = "rejected" \/ (status = "approved" /\ score = None) ->
  exists (resolved : GradingRequest.t) (s' : MemStorage),
    resolved
    = GradingRequest.mk (GradingRequest.id request)
        (GradingRequest.answerId request)
        (GradingRequest.requestedAt request) status comment (Some now) /\
    putGradingRequest now user requestId status comment score s
    = (Sent 200 (Some resolved), s') /\
    getGradingRequest requestId s' = Some resolved /\
    answers s' = answers s /\ examAttempts s' = examAttempts s /\
    questions s' = questions s /\ exams s' = exams s.
Proof.
  intros Hreq Hans Hatt Hexam Howner Hstatus.
  rewrite (putGradingRequest_plain now user requestId status comment score s
             request answer attempt exam Hreq Hans Hatt Hexam Howner Hstatus).
  do 2 eexists. split; [reflexivity|]. split; [reflexivity|].
  split; [|repeat split].
  unfold getGradingRequest. cbn [gradingRequests with_gradingRequests].
  apply get_set_eq.
Qed.

(** In the session: a rejection with a score of 4 leaves the answer at 5. *)
Lemma putGradingRequest_without_score_witness :
  exists s',
    putGradingRequest 3000 teacher 1 "rejected" (Some "no") (Some 4)
      session_store
    = (Sent 200
         (Some (GradingRequest.mk 1 1 2000 "rejected" (Some "no")
                  (Some 3000))), s') /\
    getAnswer 1 s' = Some session_answer.
Proof.
  edestruct (putGradingRequest_without_score 3000 teacher 1 "rejected"
               (Some "no") (Some 4) session_store)
    as (resolved & s' & -> & Hput & _ & Hans & _).
  - reflexivity.
  - reflexivity.
  - reflexivity.
  - reflexivity.
  - reflexivity.
  - left. reflexivity.
  - exists s'. split; [exact Hput|].
    unfold getAnswer. rewrite Hans. reflexivity.
Defined.

(** The route does not look at the status a request already has: after a
    resolution, a second one by the owning teacher succeeds as well and
    overwrites the status, the comment and [resolvedAt] of the first, so a
    request can go from approved to rejected and back. *)
Theorem putGradingRequest_can_be_repeated (now1 now2 : Z) (user : User.t)
  (requestId : Z) (status1 status2 : string) (comment1 comment2 : option string)
  (s : MemStorage) (request : GradingRequest.t) (answer : Answer.t)
  (attempt : ExamAttempt.t) (exam : Exam.t) :
  getGradingRequest requestId s = Some request ->
  getAnswer (GradingRequest.answerId request) s = Some answer ->
  getExamAttempt (Answer.attemptId answer) s = Some attempt ->
  getExam (ExamAttempt.examId attempt) s = Some exam ->
  Exam.userId exam = User.id user ->
  status1 = "approved" \/ status1 = "rejected" ->
  status2 = "approved" \/ status2 = "rejected" ->
  exists first s1 s2,
    putGradingRequest now1 user requestId status1 comment1 None s
    = (Sent 200 (Some first), s1) /\
    GradingRequest.status first = status1 /\
    putGradingRequest now2 user requestId status2 comment2 None s1
    = (Sent 200
         (Some (GradingRequest.mk (GradingRequest.id request)
                  (GradingRequest.answerId request)
                  (GradingRequest.requestedAt request) status2 comment2
                  (Some now2))), s2) /\
    getGradingRequest requestId s2
    = Some (GradingRequest.mk (GradingRequest.id request)
              (GradingRequest.answerId request)
              (GradingRequest.requestedAt request) status2 comment2
              (Some now2)).
Proof.
  intros Hreq Hans Hatt Hexam Howner H1 H2.
  assert (P1 : status1 = "rejected" \/ (status1 = "approved" /\ @None Z = None))
    by tauto.
  assert (P2 : status2 = "rejected" \/ (status2 = "approved" /\ @None Z = None))
    by tauto.
  rewrite (putGradingRequest_plain now1 user requestId status1 comment1 None s
             request answer attempt exam Hreq Hans Hatt Hexam Howner P1).
  do 3 eexists. split; [reflexivity|]. split; [reflexivity|].
  match goal with
  | |- putGradingRequest _ _ _ _ _ _ ?s1 = _ /\ _ =>
      assert (Hreq1 : getGradingRequest requestId s1
                      = Some (GradingRequest.mk (GradingRequest.id request)
                                (GradingRequest.answerId request)
                                (GradingRequest.requestedAt request) status1
                                comment1 (Some now1)))
  end.
  { unfold getGradingRequest. cbn [gradingRequests with_gradingRequests].
    apply get_set_eq. }
  rewrite (putGradingRequest_plain now2 user requestId status2 comment2 None _
             _ answer attempt exam Hreq1 Hans Hatt Hexam Howner P2).
  cbn [GradingRequest.id GradingRequest.answerId GradingRequest.requestedAt].
  split; [reflexivity|].
  unfold getGradingRequest. cbn [gradingRequests with_gradingRequests].
  apply get_set_eq.
Qed.

(** In the session: approved at 3000, rejected at 4000. *)
Lemma putGradingRequest_can_be_repeated_witness :
  exists s1 s2,
    snd (putGradingRequest 3000 teacher 1 "approved" None None session_store)
    = s1 /\
    putGradingRequest 4000 teacher 1 "rejected" None None s1
    = (Sent 200
         (Some (GradingRequest.mk 1 1 2000 "rejected" None (Some 4000))), s2).
Proof.
  edestruct (putGradingRequest_can_be_repeated 3000 4000 teacher 1 "approved"
               "rejected" None None session_store)
    as (first & s1 & s2 & Hfirst & _ & Hsecond & _).
  - reflexivity.
  - reflexivity.
  - reflexivity.
  - reflexivity.
  - reflexivity.
  - left. reflexivity.
  - right. reflexivity.
  - exists s1, s2. split; [|exact Hsecond]. rewrite Hfirst. reflexivity.
Defined.

(** ** Ids are handed out in sequence *)

Section SequentialFacts.
Context {V : Type}.
Implicit Types (m : JsMap.t V) (k n : Z) (v : V).

Lemma sequential_set m k n v :
  JsMap.get k m <> None -> sequential n m -> sequential n (JsMap.set k v m).
Proof.
  intros Hk (H1 & H2 & H3). unfold sequential. rewrite keys_set.
  destruct (JsMap.get k m); [auto | congruence].
Qed.

Lemma sequential_next m n v :
  sequential n m -> sequential (n + 1) (JsMap.set n v m).
Proof.
  intros (H1 & H2 & H3). unfold sequential. rewrite keys_set.
  assert (H3' : Forall (fun k => 1 <= k < n + 1) (JsMap.keys m)).
  { eapply Forall_impl; [|exact H3]. cbn. intros. lia. }
  destruct (JsMap.get n m) eqn:E.
  - repeat split; auto. lia.
  - apply get_none_keys in E. repeat split; [lia| |].
    + apply NoDup_app; auto.
      * constructor; [tauto | constructor].
      * intros x Hx [<-|[]]. tauto.
    + apply Forall_app. split; auto. constructor; [lia | constructor].
Qed.

Lemma keys_remove_incl m k x :
  In x (JsMap.keys (JsMap.remove k m)) -> In x (JsMap.keys m).
Proof.
  induction m as [|[k' v'] m IH]; cbn; auto.
  destruct (k =? k'); cbn; tauto.
Qed.

Lemma sequential_remove m k n :
  sequential n m -> sequential n (JsMap.remove k m).
Proof.
  intros (H1 & H2 & H3). repeat split; auto.
  - clear H3. induction m as [|[k' v'] m IH]; cbn; auto.
    inversion H2; subst. destruct (k =? k'); cbn; auto.
    constructor; auto. intros Hin. apply keys_remove_incl in Hin. tauto.
  - rewrite Forall_forall in *. intros x Hx.
    apply H3. eapply keys_remove_incl; eauto.
Qed.

Lemma sequential_fresh m n : sequential n m -> JsMap.get n m = None.
Proof.
  intros (_ & _ & H3). apply get_none_keys. intros Hin.
  rewrite Forall_forall in H3. specialize (H3 _ Hin). lia.
Qed.

Lemma sequential_range m n k v :
  sequential n m -> JsMap.get k m = Some v -> 1 <= k < n.
Proof.
  intros (_ & _ & H3) Hget. rewrite Forall_forall in H3. apply H3.
  apply get_in in Hget. change k with (fst (k, v)). now apply in_map.
Qed.
End SequentialFacts.

Create HintDb ids discriminated.

Lemma newMemStorage_ids (now : Z) : ids_ok (newMemStorage now).
Proof.
  split; cbn; unfold sequential, keyed; cbn;
    repeat split; try lia; repeat constructor; cbn; try lia; tauto.
Qed.

Ltac ids_method :=
  intros H Hok; destruct Hok;
  repeat match goal with
         | H : match ?x with _ => _ end = (_, _) |- _ => destruct x eqn:?
         | H : (_, _) = (_, _) |- _ => injection H as <- <-
         end;
  split; cbn; auto using sequential_next, sequential_remove;
  try (apply sequential_set; [congruence | assumption]);
  try (apply keyed_set; [assumption|]; cbn; auto;
       eapply keyed_get_id; eauto).

Lemma createUser_ids now d s u s' :
  createUser now d s = (u, s') -> ids_ok s -> ids_ok s'.
Proof. unfold createUser. ids_method. Qed.

Lemma createExam_ids now code d s e s' :
  createExam now code d s = (e, s') -> ids_ok s -> ids_ok s'.
Proof. unfold createExam. ids_method. Qed.

Lemma updateExam_ids id d s e s' :
  updateExam id d s = (e, s') -> ids_ok s -> ids_ok s'.
Proof. unfold updateExam. ids_method. Qed.

Lemma deleteExam_ids id s b s' :
  deleteExam id s = (b, s') -> ids_ok s -> ids_ok s'.
Proof. unfold deleteExam. ids_method. Qed.

Lemma createQuestion_ids d s q s' :
  createQuestion d s = (q, s') -> ids_ok s -> ids_ok s'.
Proof. unfold createQuestion. ids_method. Qed.

Lemma updateQuestion_ids id d s q s' :
  updateQuestion id d s = (q, s') -> ids_ok s -> ids_ok s'.
Proof. unfold updateQuestion. ids_method. Qed.

Lemma deleteQuestion_ids id s b s' :
  deleteQuestion id s = (b, s') -> ids_ok s -> ids_ok s'.
Proof. unfold deleteQuestion. ids_method. Qed.

Lemma createExamAttempt_ids now d s a s' :
  createExamAttempt now d s = (a, s') -> ids_ok s -> ids_ok s'.
Proof. unfold createExamAttempt. ids_method. Qed.

Lemma updateExamAttempt_ids id d s a s' :
  updateExamAttempt id d s = (a, s') -> ids_ok s -> ids_ok s'.
Proof. unfold updateExamAttempt. ids_method. Qed.

Lemma createAnswer_ids d s a s' :
  createAnswer d s = (a, s') -> ids_ok s -> ids_ok s'.
Proof. unfold createAnswer. ids_method. Qed.

Lemma updateAnswer_ids id d s a s' :
  updateAnswer id d s = (a, s') -> ids_ok s -> ids_ok s'.
Proof. unfold updateAnswer. ids_method. Qed.

Lemma createGradingRequest_ids now d s r s' :
  createGradingRequest now d s = (r, s') -> ids_ok s -> ids_ok s'.
Proof. unfold createGradingRequest. ids_method. Qed.

Lemma updateGradingRequest_ids id d s r s' :
  updateGradingRequest id d s = (r, s') -> ids_ok s -> ids_ok s'.
Proof. unfold updateGradingRequest. ids_method. Qed.

Lemma gradeStored_ids answerId questionId answerText s :
  ids_ok s -> ids_ok (gradeStored answerId questionId answerText s).
Proof.
  intros Hok. unfold gradeStored.
  destruct (getQuestion questionId s) as [question|]; auto.
  destruct (negb _); auto. destruct (autoGrade question answerText).
  destruct (updateAnswer _ _ s) eqn:E. cbn [snd].
  eapply updateAnswer_ids; eauto.
Qed.

#[local] Hint Resolve createUser_ids createExam_ids updateExam_ids
  deleteExam_ids createQuestion_ids updateQuestion_ids deleteQuestion_ids
  createExamAttempt_ids updateExamAttempt_ids createAnswer_ids
  updateAnswer_ids createGradingRequest_ids updateGradingRequest_ids
  gradeStored_ids : ids.

Lemma handle_ids (r : Request) (s : MemStorage) :
  ids_ok s -> ids_ok (handle r s).
Proof.
  intros Hok.
  destruct r; cbn [handle];
    unfold postRegister, postExam, putExam, deleteExamRoute, postQuestion,
      putQuestion, deleteQuestionRoute, postAttempt, putAttemptComplete,
      postAnswer, putAnswerGrade, postGradingRequest, putGradingRequest;
    repeat (break_match; cbn [snd]; auto);
    eauto 6 with ids.
Qed.

Lemma reachable_ids (s : MemStorage) : reachable s -> ids_ok s.
Proof.
  induction 1; [apply newMemStorage_ids | now apply handle_ids].
Qed.

(** ** Records are never lost *)

Lemma persists_refl (s : MemStorage) : persists s s.
Proof. repeat split; eauto 6. Qed.

Lemma persists_trans (s1 s2 s3 : MemStorage) :
  persists s1 s2 -> persists s2 s3 -> persists s1 s3.
Proof.
  intros (U1 & T1 & A1 & R1) (U2 & T2 & A2 & R2). repeat split.
  - auto.
  - intros id a H. destruct (T1 id a H) as (a2 & G2 & E1 & E2 & E3).
    destruct (T2 id a2 G2) as (a3 & G3 & F1 & F2 & F3).
    exists a3. repeat split; congruence.
  - intros id a H. destruct (A1 id a H) as (a2 & G2 & E1 & E2).
    destruct (A2 id a2 G2) as (a3 & G3 & F1 & F2).
    exists a3. repeat split; congruence.
  - intros id r H. destruct (R1 id r H) as (r2 & G2 & E1 & E2).
    destruct (R2 id r2 G2) as (r3 & G3 & F1 & F2).
    exists r3. repeat split; congruence.
Qed.

Section GetSet.
Context {V : Type}.
Implicit Types (m : JsMap.t V) (k : Z) (v : V).

Lemma get_set_fresh m k n v x :
  sequential n m -> JsMap.get k m = Some x ->
  JsMap.get k (JsMap.set n v m) = Some x.
Proof.
  intros Hseq Hget. rewrite get_set_ne; auto.
  intros <-. rewrite (sequential_fresh _ _ Hseq) in Hget. discriminate.
Qed.

Lemma get_set_cases m k k' v x :
  JsMap.get k' m = Some x ->
  JsMap.get k' (JsMap.set k v m) = Some (if k =? k' then v else x).
Proof.
  intros Hget. destruct (k =? k') eqn:E.
  - apply Z.eqb_eq in E. subst. apply get_set_eq.
  - apply Z.eqb_neq in E. now rewrite get_set_ne.
Qed.
End GetSet.

Ltac persists_frame :=
  repeat match goal with
         | H : match ?x with _ => _ end = (_, _) |- _ => destruct x eqn:?
         | H : (_, _) = (_, _) |- _ => injection H as <- <-
         end;
  try apply persists_refl;
  repeat split; unfold getUser, getExamAttempt, getAnswer, getGradingRequest;
  cbn [users examAttempts answers gradingRequests with_exams with_questions
         with_examAttempts with_answers with_gradingRequests];
  eauto 6.

Lemma createUser_persists now d s u s' :
  createUser now d s = (u, s') -> ids_ok s -> persists s s'.
Proof.
  unfold createUser. intros H Hok. persists_frame.
  intros id x Hx. eapply get_set_fresh; eauto. apply Hok.
Qed.

Lemma createExam_persists now code d s e s' :
  createExam now code d s = (e, s') -> persists s s'.
Proof. unfold createExam. intros H. persists_frame. Qed.

Lemma updateExam_persists id d s e s' :
  updateExam id d s = (e, s') -> persists s s'.
Proof. unfold updateExam. intros H. persists_frame. Qed.

Lemma deleteExam_persists id s b s' :
  deleteExam id s = (b, s') -> persists s s'.
Proof. unfold deleteExam. intros H. persists_frame. Qed.

Lemma createQuestion_persists d s q s' :
  createQuestion d s = (q, s') -> persists s s'.
Proof. unfold createQuestion. intros H. persists_frame. Qed.

Lemma updateQuestion_persists id d s q s' :
  updateQuestion id d s = (q, s') -> persists s s'.
Proof. unfold updateQuestion. intros H. persists_frame. Qed.

Lemma deleteQuestion_persists id s b s' :
  deleteQuestion id s = (b, s') -> persists s s'.
Proof. unfold deleteQuestion. intros H. persists_frame. Qed.

Lemma createExamAttempt_persists now d s a s' :
  createExamAttempt now d s = (a, s') -> ids_ok s -> persists s s'.
Proof.
  unfold createExamAttempt. intros H Hok. persists_frame.
  intros id x Hx. exists x. split; auto.
  eapply get_set_fresh; eauto. apply Hok.
Qed.

Lemma updateExamAttempt_persists id d s a s' :
  updateExamAttempt id d s = (a, s') -> persists s s'.
Proof.
  unfold updateExamAttempt. intros H. persists_frame.
  intros k x Hx. rewrite (get_set_cases _ id k _ x Hx).
  destruct (id =? k) eqn:E; eauto.
  apply Z.eqb_eq in E. subst k. eexists. split; [reflexivity|].
  cbn. replace x with t by congruence. auto.
Qed.

Lemma createAnswer_persists d s a s' :
  createAnswer d s = (a, s') -> ids_ok s -> persists s s'.
Proof.
  unfold createAnswer. intros H Hok. persists_frame.
  intros id x Hx. exists x. split; auto.
  eapply get_set_fresh; eauto. apply Hok.
Qed.

Lemma updateAnswer_persists id d s a s' :
  updateAnswer id d s = (a, s') -> persists s s'.
Proof.
  unfold updateAnswer. intros H. persists_frame.
  intros k x Hx. rewrite (get_set_cases _ id k _ x Hx).
  destruct (id =? k) eqn:E; eauto.
  apply Z.eqb_eq in E. subst k. eexists. split; [reflexivity|].
  cbn. replace x with t by congruence. auto.
Qed.

Lemma createGradingRequest_persists now d s r s' :
  createGradingRequest now d s = (r, s') -> ids_ok s -> persists s s'.
Proof.
  unfold createGradingRequest. intros H Hok. persists_frame.
  intros id x Hx. exists x. split; auto.
  eapply get_set_fresh; eauto. apply Hok.
Qed.

Lemma updateGradingRequest_persists id d s r s' :
  updateGradingRequest id d s = (r, s') -> persists s s'.
Proof.
  unfold updateGradingRequest. intros H. persists_frame.
  intros k x Hx. rewrite (get_set_cases _ id k _ x Hx).
  destruct (id =? k) eqn:E; eauto.
  apply Z.eqb_eq in E. subst k. eexists. split; [reflexivity|].
  cbn. replace x with t by congruence. auto.
Qed.

Lemma gradeStored_persists answerId questionId answerText s :
  persists s (gradeStored answerId questionId answerText s).
Proof.
  unfold gradeStored.
  destruct (getQuestion questionId s) as [question|];
    [|apply persists_refl].
  destruct (negb _); [|apply persists_refl].
  destruct (autoGrade question answerText).
  destruct (updateAnswer _ _ s) eqn:E. cbn [snd].
  eapply updateAnswer_persists; eauto.
Qed.

(** The two facts together, carried along the storage calls of a route. *)
Lemma gradeStored_chain answerId questionId answerText s0 s :
  ids_ok s /\ persists s0 s ->
  ids_ok (gradeStored answerId questionId answerText s) /\
  persists s0 (gradeStored answerId questionId answerText s).
Proof.
  intros [Hi Hp]. split; [now apply gradeStored_ids|].
  eapply persists_trans; [exact Hp | apply gradeStored_persists].
Qed.

Lemma createUser_chain now d s0 s u s' :
  createUser now d s = (u, s') ->
  ids_ok s /\ persists s0 s -> ids_ok s' /\ persists s0 s'.
Proof.
  intros H [Hi Hp]. split; [eapply createUser_ids; eauto|].
  eapply persists_trans; [exact Hp | eapply createUser_persists; eauto].
Qed.

Lemma createExam_chain now code d s0 s e s' :
  createExam now code d s = (e, s') ->
  ids_ok s /\ persists s0 s -> ids_ok s' /\ persists s0 s'.
Proof.
  intros H [Hi Hp]. split; [eapply createExam_ids; eauto|].
  eapply persists_trans; [exact Hp | eapply createExam_persists; eauto].
Qed.

Lemma updateExam_chain id d s0 s e s' :
  updateExam id d s = (e, s') ->
  ids_ok s /\ persists s0 s -> ids_ok s' /\ persists s0 s'.
Proof.
  intros H [Hi Hp]. split; [eapply updateExam_ids; eauto|].
  eapply persists_trans; [exact Hp | eapply updateExam_persists; eauto].
Qed.

Lemma deleteExam_chain id s0 s b s' :
  deleteExam id s = (b, s') ->
  ids_ok s /\ persists s0 s -> ids_ok s' /\ persists s0 s'.
Proof.
  intros H [Hi Hp]. split; [eapply deleteExam_ids; eauto|].
  eapply persists_trans; [exact Hp | eapply deleteExam_persists; eauto].
Qed.

Lemma createQuestion_chain d s0 s q s' :
  createQuestion d s = (q, s') ->
  ids_ok s /\ persists s0 s -> ids_ok s' /\ persists s0 s'.
Proof.
  intros H [Hi Hp]. split; [eapply createQuestion_ids; eauto|].
  eapply persists_trans; [exact Hp | eapply createQuestion_persists; eauto].
Qed.

Lemma updateQuestion_chain id d s0 s q s' :
  updateQuestion id d s = (q, s') ->
  ids_ok s /\ persists s0 s -> ids_ok s' /\ persists s0 s'.
Proof.
  intros H [Hi Hp]. split; [eapply updateQuestion_ids; eauto|].
  eapply persists_trans; [exact Hp | eapply updateQuestion_persists; eauto].
Qed.

Lemma deleteQuestion_chain id s0 s b s' :
  deleteQuestion id s = (b, s') ->
  ids_ok s /\ persists s0 s -> ids_ok s' /\ persists s0 s'.
Proof.
  intros H [Hi Hp]. split; [eapply deleteQuestion_ids; eauto|].
  eapply persists_trans; [exact Hp | eapply deleteQuestion_persists; eauto].
Qed.

Lemma createExamAttempt_chain now d s0 s a s' :
  createExamAttempt now d s = (a, s') ->
  ids_ok s /\ persists s0 s -> ids_ok s' /\ persists s0 s'.
Proof.
  intros H [Hi Hp]. split; [eapply createExamAttempt_ids; eauto|].
  eapply persists_trans; [exact Hp | eapply createExamAttempt_persists; eauto].
Qed.

Lemma updateExamAttempt_chain id d s0 s a s' :
  updateExamAttempt id d s = (a, s') ->
  ids_ok s /\ persists s0 s -> ids_ok s' /\ persists s0 s'.
Proof.
  intros H [Hi Hp]. split; [eapply updateExamAttempt_ids; eauto|].
  eapply persists_trans; [exact Hp | eapply updateExamAttempt_persists; eauto].
Qed.

Lemma createAnswer_chain d s0 s a s' :
  createAnswer d s = (a, s') ->
  ids_ok s /\ persists s0 s -> ids_ok s' /\ persists s0 s'.
Proof.
  intros H [Hi Hp]. split; [eapply createAnswer_ids; eauto|].
  eapply persists_trans; [exact Hp | eapply createAnswer_persists; eauto].
Qed.

Lemma updateAnswer_chain id d s0 s a s' :
  updateAnswer id d s = (a, s') ->
  ids_ok s /\ persists s0 s -> ids_ok s' /\ persists s0 s'.
Proof.
  intros H [Hi Hp]. split; [eapply updateAnswer_ids; eauto|].
  eapply persists_trans; [exact Hp | eapply updateAnswer_persists; eauto].
Qed.

Lemma createGradingRequest_chain now d s0 s r s' :
  createGradingRequest now d s = (r, s') ->
  ids_ok s /\ persists s0 s -> ids_ok s' /\ persists s0 s'.
Proof.
  intros H [Hi Hp]. split; [eapply createGradingRequest_ids; eauto|].
  eapply persists_trans; [exact Hp | eapply createGradingRequest_persists; eauto].
Qed.

Lemma updateGradingRequest_chain id d s0 s r s' :
  updateGradingRequest id d s = (r, s') ->
  ids_ok s /\ persists s0 s -> ids_ok s' /\ persists s0 s'.
Proof.
  intros H [Hi Hp]. split; [eapply updateGradingRequest_ids; eauto|].
  eapply persists_trans; [exact Hp | eapply updateGradingRequest_persists; eauto].
Qed.

Create HintDb chain discriminated.

#[local] Hint Resolve gradeStored_chain createUser_chain createExam_chain updateExam_chain deleteExam_chain createQuestion_chain updateQuestion_chain deleteQuestion_chain createExamAttempt_chain updateExamAttempt_chain createAnswer_chain updateAnswer_chain createGradingRequest_chain updateGradingRequest_chain : chain.

Lemma handle_chain (r : Request) (s : MemStorage) :
  ids_ok s -> ids_ok (handle r s) /\ persists s (handle r s).
Proof.
  intros Hok.
  assert (H0 : ids_ok s /\ persists s s) by (split; [assumption|apply persists_refl]).
  destruct r; cbn [handle];
    unfold postRegister, postExam, putExam, deleteExamRoute, postQuestion,
      putQuestion, deleteQuestionRoute, postAttempt, putAttemptComplete,
      postAnswer, putAnswerGrade, postGradingRequest, putGradingRequest;
    repeat (break_match; cbn [snd]; auto);
    eauto 6 with chain.
Qed.

Lemma run_chain (rs : list Request) (s : MemStorage) :
  ids_ok s -> ids_ok (run rs s) /\ persists s (run rs s).
Proof.
  unfold run. revert s.
  induction rs as [|r rs IH]; cbn [fold_left]; intros s Hok.
  - split; [assumption | apply persists_refl].
  - destruct (handle_chain r s Hok) as [Hi Hp].
    destruct (IH _ Hi) as [Hi' Hp'].
    split; [assumption | eapply persists_trans; eauto].
Qed.

(** ** What a route writes to *)

Lemma gradeStored_unchanged (c : Collection) answerId questionId answerText
  s :
  c <> Answers ->
  unchanged c s (gradeStored answerId questionId answerText s).
Proof.
  intros Hc. unfold gradeStored.
  destruct (getQuestion questionId s); [|destruct c; cbn; auto].
  destruct (negb _); [|destruct c; cbn; auto].
  destruct (autoGrade _ _). unfold updateAnswer.
  destruct (JsMap.get answerId (answers s)); destruct c; cbn; auto.
  congruence.
Qed.

Lemma unchanged_trans (c : Collection) (s1 s2 s3 : MemStorage) :
  unchanged c s1 s2 -> unchanged c s2 s3 -> unchanged c s1 s3.
Proof. destruct c; cbn; intros [-> ->] [-> ->]; auto. Qed.

Ltac unfold_routes :=
  unfold postRegister, postExam, putExam, deleteExamRoute, postQuestion,
    putQuestion, deleteQuestionRoute, postAttempt, putAttemptComplete,
    postAnswer, putAnswerGrade, postGradingRequest, putGradingRequest.

Ltac unfold_methods :=
  unfold createUser, createExam, updateExam, deleteExam, createQuestion,
    updateQuestion, deleteQuestion, createExamAttempt, updateExamAttempt,
    createAnswer, updateAnswer, createGradingRequest, updateGradingRequest.

Lemma handle_unchanged (r : Request) (s : MemStorage) (c : Collection) :
  ~ In c (footprint r) -> unchanged c s (handle r s).
Proof.
  intros Hc.
  destruct r; cbn [handle]; try solve
    [ destruct c; cbn in Hc; try tauto;
      unfold_routes; unfold_methods;
      repeat (break_match; cbn [snd]);
      repeat match goal with
             | H : match ?x with _ => _ end = (_, _) |- _ => destruct x eqn:?
             | H : (_, _) = (_, _) |- _ => injection H as <- <-
             end;
      cbn; auto ].
  (* the answer route goes through the grading block *)
  assert (Hne : c <> Answers) by (intros ->; apply Hc; cbn; auto).
  unfold postAnswer.
  destruct (getExamAttempt attemptId s) as [attempt|]; cbn [snd];
    [|destruct c; cbn; auto].
  destruct (negb _); cbn [snd]; [destruct c; cbn; auto|].
  destruct (ExamAttempt.completedAt attempt); cbn [snd];
    [destruct c; cbn; auto|].
  destruct (find _ _) as [existing|].
  - destruct (updateAnswer _ _ s) as [updated s1] eqn:E. cbn [snd].
    eapply unchanged_trans; [|now apply gradeStored_unchanged].
    unfold updateAnswer in E.
    destruct (JsMap.get _ _); injection E as <- <-;
      destruct c; cbn; auto; congruence.
  - destruct (createAnswer _ s) as [fresh s1] eqn:E. cbn [snd].
    eapply unchanged_trans; [|now apply gradeStored_unchanged].
    unfold createAnswer in E. injection E as <- <-.
    destruct c; cbn; auto; congruence.
Qed.

(** Each route writes only to its own collections: registering only to
    the users; the exam routes only to the exams; the question routes only
    to the questions; starting and completing only to the attempts;
    submitting an answer only to the answers (never to the attempt or its
    score); a manual grade to the answers and the attempts; a review
    request only to the grading requests; a resolution to the requests,
    the answers and the attempts.  Every other collection, with its id
    counter, is the same after the request. *)
Theorem routes_write_only_their_collections (r : Request) (s : MemStorage)
  (c : Collection) :
  ~ In c (footprint r) -> unchanged c s (handle r s).
Proof. apply handle_unchanged. Qed.

(** Submitting an answer in the session leaves the attempts as they are. *)
Lemma routes_write_only_their_collections_witness :
  examAttempts (handle (PostAnswer teacher 1 2 "because") session_store)
  = examAttempts session_store.
Proof.
  apply (routes_write_only_their_collections
           (PostAnswer teacher 1 2 "because") session_store Attempts).
  cbn. intros [H|[]]. discriminate.
Defined.

(** ** The effect of the answer routes on the store *)

Section SetFacts.
Context {V : Type}.
Implicit Types (m : JsMap.t V) (k : Z) (v : V).

Lemma set_set m k v1 v2 :
  JsMap.set k v2 (JsMap.set k v1 m) = JsMap.set k v2 m.
Proof.
  induction m as [|[k' v'] m IH]; cbn.
  - now rewrite Z.eqb_refl.
  - destruct (k =? k') eqn:E; cbn; rewrite ?Z.eqb_refl, ?E; auto.
    now rewrite IH.
Qed.

Lemma set_same m k v : JsMap.get k m = Some v -> JsMap.set k v m = m.
Proof.
  induction m as [|[k' v'] m IH]; cbn; intros H; [discriminate|].
  destruct (k =? k') eqn:E.
  - apply Z.eqb_eq in E. injection H as ->. now subst.
  - now rewrite IH.
Qed.
End SetFacts.

Lemma regrade_fields (q : option Question.t) (answerText : string)
  (a : Answer.t) :
  Answer.id (regrade q answerText a) = Answer.id a /\
  Answer.attemptId (regrade q answerText a) = Answer.attemptId a /\
  Answer.questionId (regrade q answerText a) = Answer.questionId a /\
  Answer.answer (regrade q answerText a) = Answer.answer a /\
  Answer.manuallyGraded (regrade q answerText a) = Answer.manuallyGraded a.
Proof.
  unfold regrade, graded. destruct q as [question|]; auto.
  destruct (Question.type question =? "essay")%string; auto.
Qed.

Lemma gradeStored_answers (answerId questionId : Z) (answerText : string)
  (s : MemStorage) (a : Answer.t) :
  getAnswer answerId s = Some a ->
  answers (gradeStored answerId questionId answerText s)
  = JsMap.set answerId (regrade (getQuestion questionId s) answerText a)
      (answers s).
Proof.
  intros Ha. unfold gradeStored, regrade, graded. unfold getAnswer in Ha.
  destruct (getQuestion questionId s) as [question|];
    [|now rewrite set_same].
  destruct (Question.type question =? "essay")%string; cbn [negb];
    [now rewrite set_same|].
  destruct (autoGrade question answerText) as [c n]. cbn [fst snd].
  unfold updateAnswer. rewrite Ha. reflexivity.
Qed.

Lemma submitted_fields (attemptId questionId : Z) (answerText : string)
  (s : MemStorage) :
  Answer.attemptId (submitted attemptId questionId answerText s) = attemptId
  /\ Answer.questionId (submitted attemptId questionId answerText s)
     = questionId.
Proof.
  unfold submitted. destruct (find _ _) as [existing|] eqn:Hfind; auto.
  apply find_some in Hfind as [Hin Hq]. apply Z.eqb_eq in Hq.
  unfold getAnswersByAttempt in Hin. apply filter_In in Hin as [_ Ha].
  apply Z.eqb_eq in Ha. auto.
Qed.

(** Either the submission changes nothing, or the attempt is the caller's
    and in progress and exactly the entry of the submitted answer is
    written, with the grade on it. *)
Lemma postAnswer_effect (user : User.t) (attemptId questionId : Z)
  (answerText : string) (s : MemStorage) :
  store_ok s ->
  snd (postAnswer user attemptId questionId answerText s) = s \/
  (exists attempt,
      getExamAttempt attemptId s = Some attempt /\
      ExamAttempt.completedAt attempt = None /\
      answers (snd (postAnswer user attemptId questionId answerText s))
      = JsMap.set
          (Answer.id (submitted attemptId questionId answerText s))
          (regrade (getQuestion questionId s) answerText
             (submitted attemptId questionId answerText s))
          (answers s)).
Proof.
  intros Hok. unfold postAnswer.
  destruct (getExamAttempt attemptId s) as [attempt|] eqn:Hget; auto.
  destruct (negb (_ =? _)) eqn:Hu; auto.
  destruct (ExamAttempt.completedAt attempt) eqn:Hc; auto.
  right. exists attempt. split; [reflexivity|]. split; [exact Hc|].
  cbn [InsertAnswer.questionId InsertAnswer.answer]. unfold submitted.
  destruct (find _ _) as [existing|] eqn:Hfind.
  - destruct (found_answer_stored _ _ _ _ Hok Hfind) as [Hstored _].
    unfold updateAnswer. unfold getAnswer in Hstored. rewrite Hstored.
    cbn [snd Answer.id].
    erewrite gradeStored_answers.
    2:{ unfold getAnswer. cbn [answers with_answers]. apply get_set_eq. }
    cbn [answers with_answers]. rewrite set_set. reflexivity.
  - unfold createAnswer. cbn [snd Answer.id].
    erewrite gradeStored_answers.
    2:{ unfold getAnswer. cbn [answers]. apply get_set_eq. }
    cbn [answers]. rewrite set_set. reflexivity.
Qed.

Lemma putAnswerGrade_effect (user : User.t) (answerId : Z)
  (score : option Z) (isCorrect : bool) (s : MemStorage) :
  store_ok s ->
  snd (putAnswerGrade user answerId score isCorrect s) = s \/
  regraded_by s (snd (putAnswerGrade user answerId score isCorrect s)).
Proof.
  intros [Hka Hkt _ _]. unfold putAnswerGrade.
  destruct (getAnswer answerId s) as [answer|] eqn:Ha; auto.
  destruct (getExamAttempt _ s) as [attempt|] eqn:Ht; auto.
  destruct (getExam _ s); auto.
  destruct (negb _); auto.
  destruct score as [n|]; auto.
  destruct (n <? 0); auto.
  destruct (getQuestion _ s); auto.
  destruct (n >? _); auto.
  right.
  assert (Haid : Answer.id answer = answerId)
    by (eapply keyed_get_id; eauto).
  assert (Htid : ExamAttempt.id attempt = Answer.attemptId answer)
    by (eapply keyed_get_id; eauto).
  subst answerId. unfold getAnswer in Ha. unfold getExamAttempt in Ht.
  rewrite <- Htid in Ht.
  unfold updateAnswer. rewrite Ha. rewrite attempt_score_total.
  unfold updateExamAttempt. cbn [examAttempts with_answers snd].
  rewrite Ht. cbn [snd].
  exists answer,
    (PartialAnswer.apply
       (PartialAnswer.mk None (Some (Some isCorrect)) (Some (Some n))
          (Some true)) answer), attempt.
  repeat split; auto.
Qed.

Lemma putGradingRequest_effect (now : Z) (user : User.t) (requestId : Z)
  (status : string) (comment : option string) (score : option Z)
  (s : MemStorage) :
  store_ok s ->
  let s' :=
    snd (putGradingRequest now user requestId status comment score s) in
  (answers s' = answers s /\ examAttempts s' = examAttempts s) \/
  regraded_by s s'.
Proof.
  intros [Hka Hkt _ _]. unfold putGradingRequest.
  destruct (getGradingRequest requestId s) as [request|] eqn:Hr; auto.
  destruct (getAnswer _ s) as [answer|] eqn:Ha; auto.
  destruct (getExamAttempt _ s) as [attempt|] eqn:Ht; auto.
  destruct (getExam _ s); auto.
  destruct (negb (_ =? _)); auto.
  destruct (negb (_ || _)); auto.
  unfold updateGradingRequest. unfold getGradingRequest in Hr. rewrite Hr.
  destruct (status =? "approved")%string; auto.
  destruct score as [n|]; auto.
  unfold getQuestion. cbn [questions with_gradingRequests].
  destruct (JsMap.get _ (questions s)); auto.
  destruct (n >? _); auto.
  right.
  assert (Haid : JsMap.get (Answer.id answer) (answers s) = Some answer).
  { unfold getAnswer in Ha.
    rewrite (keyed_get_id Answer.id _ _ _ Hka Ha). exact Ha. }
  assert (Htid : ExamAttempt.id attempt = Answer.attemptId answer)
    by (eapply keyed_get_id; eauto).
  unfold getExamAttempt in Ht. rewrite <- Htid in Ht.
  unfold updateAnswer. cbn [answers with_gradingRequests]. rewrite Haid.
  rewrite attempt_score_total.
  unfold updateExamAttempt. cbn [examAttempts with_answers
    with_gradingRequests snd].
  rewrite Ht. cbn [snd].
  exists answer,
    (PartialAnswer.apply
       (PartialAnswer.mk None (Some (Some (n >? 0))) (Some (Some n))
          (Some true)) answer), attempt.
  repeat split; auto.
Qed.

(** ** One answer for an attempt and a question *)

Lemma one_answer_set (m : JsMap.t Answer.t) (k : Z) (new : Answer.t) :
  one_answer m ->
  (forall b, In b (JsMap.values m) ->
             Answer.attemptId b = Answer.attemptId new ->
             Answer.questionId b = Answer.questionId new ->
             Answer.id b = Answer.id new) ->
  one_answer (JsMap.set k new m).
Proof.
  intros Hone Hnew a b Ha Hb Hat Hq.
  apply in_values_set in Ha. apply in_values_set in Hb.
  destruct Ha as [->|Ha], Hb as [->|Hb]; auto.
  symmetry. apply Hnew; auto.
Qed.

Lemma regraded_by_one_answer (s s' : MemStorage) :
  one_answer (answers s) -> regraded_by s s' -> one_answer (answers s').
Proof.
  intros Hone (answer & new & attempt & Ha & _ & _ & Hid & Hat & Hq & E & _).
  rewrite E. apply one_answer_set; auto.
  intros b Hb Hbat Hbq. rewrite Hid. apply Hone; auto; try congruence.
  eapply get_in_values; eauto.
Qed.

Lemma postAnswer_one_answer (user : User.t) (attemptId questionId : Z)
  (answerText : string) (s : MemStorage) :
  store_ok s -> one_answer (answers s) ->
  one_answer (answers (snd (postAnswer user attemptId questionId answerText
                              s))).
Proof.
  intros Hok Hone.
  destruct (postAnswer_effect user attemptId questionId answerText s Hok)
    as [->|(attempt & _ & _ & ->)]; auto.
  destruct (regrade_fields (getQuestion questionId s) answerText
              (submitted attemptId questionId answerText s))
    as (Eid & Eat & Eq & _).
  destruct (submitted_fields attemptId questionId answerText s) as [Sat Sq].
  apply one_answer_set; auto.
  intros b Hb Hbat Hbq. rewrite Eid. rewrite Eat, Sat in Hbat.
  rewrite Eq, Sq in Hbq. unfold submitted.
  destruct (find _ _) as [existing|] eqn:Hfind; cbn [Answer.id].
  - pose proof (find_some _ _ Hfind) as [Hin Hqe]. apply Z.eqb_eq in Hqe.
    unfold getAnswersByAttempt in Hin. apply filter_In in Hin as [Hin Hae].
    apply Z.eqb_eq in Hae. apply Hone; auto; congruence.
  - exfalso. eapply find_none with (x := b) in Hfind.
    + rewrite Hbq, Z.eqb_refl in Hfind. discriminate.
    + unfold getAnswersByAttempt. apply filter_In. split; auto.
      now apply Z.eqb_eq.
Qed.

Lemma handle_one_answer (r : Request) (s : MemStorage) :
  store_ok s -> one_answer (answers s) -> one_answer (answers (handle r s)).
Proof.
  intros Hok Hone.
  assert (Hframe : ~ In Answers (footprint r) ->
                   one_answer (answers (handle r s))).
  { intros Hc. destruct (handle_unchanged r s Answers Hc) as [-> _]. auto. }
  destruct r; try (apply Hframe; cbn; intuition discriminate);
    cbn [handle].
  - now apply postAnswer_one_answer.
  - destruct (putAnswerGrade_effect user answerId score isCorrect s Hok)
      as [->|H]; auto.
    eapply regraded_by_one_answer; eauto.
  - destruct (putGradingRequest_effect now user requestId status comment
                score s Hok) as [[-> _]|H]; auto.
    eapply regraded_by_one_answer; eauto.
Qed.

Lemma reachable_one_answer (s : MemStorage) :
  reachable s -> one_answer (answers s).
Proof.
  induction 1 as [now|r s Hr IH].
  - intros a b [].
  - apply handle_one_answer; auto. now apply reachable_ok.
Qed.

(** In every reachable store there is at most one answer for an attempt
    and a question: two stored answers with the same [attemptId] and
    [questionId] are the same answer.  A submission for a question already
    answered in the attempt writes to that answer. *)
Theorem one_answer_per_question (s : MemStorage) (a b : Answer.t) :
  reachable s ->
  In a (JsMap.values (answers s)) -> In b (JsMap.values (answers s)) ->
  Answer.attemptId a = Answer.attemptId b ->
  Answer.questionId a = Answer.questionId b ->
  a = b.
Proof.
  intros Hreach Ha Hb Hat Hq.
  pose proof (reachable_one_answer s Hreach a b Ha Hb Hat Hq) as Hid.
  pose proof (ok_answers s (reachable_ok s Hreach)) as Hk.
  pose proof (keyed_in_get Answer.id _ a Hk Ha) as Ga.
  pose proof (keyed_in_get Answer.id _ b Hk Hb) as Gb.
  rewrite Hid in Ga. congruence.
Qed.

(** ** The effect of the request routes on the grading requests *)

Lemma postGradingRequest_requests (now : Z) (user : User.t) (answerId : Z)
  (comment : option string) (s : MemStorage) :
  snd (postGradingRequest now user answerId comment s) = s \/
  (getAnswer answerId s <> None /\
   gradingRequests (snd (postGradingRequest now user answerId comment s))
   = JsMap.set (requestIdCounter s)
       (GradingRequest.mk (requestIdCounter s) answerId now "pending"
          (nonempty comment) None)
       (gradingRequests s)).
Proof.
  unfold postGradingRequest.
  destruct (getAnswer answerId s) as [answer|] eqn:Ha; auto.
  destruct (getExamAttempt _ s); auto.
  destruct (negb _); auto.
  right. split; [congruence|]. reflexivity.
Qed.

Lemma putGradingRequest_requests (now : Z) (user : User.t) (requestId : Z)
  (status : string) (comment : option string) (score : option Z)
  (s : MemStorage) :
  let s' :=
    snd (putGradingRequest now user requestId status comment score s) in
  s' = s \/
  (exists old,
      JsMap.get requestId (gradingRequests s) = Some old /\
      (status = "approved" \/ status = "rejected") /\
      gradingRequests s'
      = JsMap.set requestId
          (GradingRequest.mk (GradingRequest.id old)
             (GradingRequest.answerId old) (GradingRequest.requestedAt old)
             status comment (Some now))
          (gradingRequests s)).
Proof.
  unfold putGradingRequest.
  destruct (getGradingRequest requestId s) as [request|] eqn:Hr; auto.
  destruct (getAnswer _ s) as [answer|]; auto.
  destruct (getExamAttempt _ s) as [attempt|]; auto.
  destruct (getExam _ s); auto.
  destruct (negb (_ =? _)); auto.
  destruct (negb (_ || _)) eqn:Hs; auto.
  right. exists request. unfold getGradingRequest in Hr.
  split; [exact Hr|]. split.
  { apply negb_false_iff, orb_true_iff in Hs.
    destruct Hs as [Hs|Hs]; apply String.eqb_eq in Hs; auto. }
  unfold updateGradingRequest. rewrite Hr.
  destruct (status =? "approved")%string; [|reflexivity].
  destruct score as [n|]; [|reflexivity].
  destruct (getQuestion _ _); [|reflexivity].
  destruct (n >? _); [reflexivity|].
  unfold updateAnswer.
  destruct (JsMap.get (Answer.id answer) _); unfold updateExamAttempt;
    destruct (JsMap.get (ExamAttempt.id attempt) _); reflexivity.
Qed.

(** ** Answers belong to attempts, requests to answers *)

Lemma persists_attempt (s s' : MemStorage) (k : Z) :
  persists s s' -> getExamAttempt k s <> None -> getExamAttempt k s' <> None.
Proof.
  intros (_ & T & _) H. destruct (getExamAttempt k s) as [a|] eqn:E;
    [|congruence].
  destruct (T k a E) as (a' & -> & _). discriminate.
Qed.

Lemma persists_answer (s s' : MemStorage) (k : Z) :
  persists s s' -> getAnswer k s <> None -> getAnswer k s' <> None.
Proof.
  intros (_ & _ & A & _) H. destruct (getAnswer k s) as [a|] eqn:E;
    [|congruence].
  destruct (A k a E) as (a' & -> & _). discriminate.
Qed.

Lemma handle_refs (r : Request) (s : MemStorage) :
  store_ok s -> ids_ok s -> refs_ok s -> refs_ok (handle r s).
Proof.
  intros Hok Hids [HA HR].
  destruct (handle_chain r s Hids) as [_ Hp]. split.
  - intros a Ha. apply (persists_attempt s _ _ Hp).
    assert (Hframe : ~ In Answers (footprint r) ->
                     getExamAttempt (Answer.attemptId a) s <> None).
    { intros Hc. destruct (handle_unchanged r s Answers Hc) as [E _].
      rewrite E in Ha. auto. }
    assert (Hregraded : regraded_by s (handle r s) ->
                        getExamAttempt (Answer.attemptId a) s <> None).
    { intros (answer & new & attempt & Ga & _ & _ & _ & Hat & _ & E & _).
      rewrite E in Ha. apply in_values_set in Ha as [->|Ha]; auto.
      rewrite Hat. apply HA. eapply get_in_values; eauto. }
    destruct r; try (apply Hframe; cbn; intuition discriminate);
      cbn [handle] in *.
    + destruct (postAnswer_effect user attemptId questionId answer s Hok)
        as [E|(attempt & Hget & _ & E)]; rewrite E in Ha; auto.
      apply in_values_set in Ha as [->|Ha]; auto.
      destruct (regrade_fields (getQuestion questionId s) answer
                  (submitted attemptId questionId answer s))
        as (_ & -> & _).
      destruct (submitted_fields attemptId questionId answer s) as [-> _].
      congruence.
    + destruct (putAnswerGrade_effect user answerId score isCorrect s Hok)
        as [E|H]; auto.
      rewrite E in Ha. auto.
    + destruct (putGradingRequest_effect now user requestId status comment
                  score s Hok) as [[E _]|H]; auto.
      rewrite E in Ha. auto.
  - intros q Hq. apply (persists_answer s _ _ Hp).
    assert (Hframe : ~ In Requests (footprint r) ->
                     getAnswer (GradingRequest.answerId q) s <> None).
    { intros Hc. destruct (handle_unchanged r s Requests Hc) as [E _].
      rewrite E in Hq. auto. }
    destruct r; try (apply Hframe; cbn; intuition discriminate);
      cbn [handle] in *.
    + destruct (postGradingRequest_requests now user answerId comment s)
        as [E|[Hans E]]; rewrite E in Hq; auto.
      apply in_values_set in Hq as [->|Hq]; auto.
    + destruct (putGradingRequest_requests now user requestId status comment
                  score s) as [E|(old & Hold & _ & E)]; rewrite E in Hq; auto.
      apply in_values_set in Hq as [->|Hq]; auto.
      cbn. apply HR. eapply get_in_values; eauto.
Qed.

Lemma reachable_refs (s : MemStorage) : reachable s -> refs_ok s.
Proof.
  induction 1 as [now|r s Hr IH].
  - split; intros x [].
  - apply handle_refs; auto using reachable_ok, reachable_ids.
Qed.

(** In every reachable store every answer belongs to a stored attempt and
    every grading request to a stored answer: attempts and answers are
    never deleted, and the routes make an answer or a request only after
    they have found what it refers to.  (The question of an answer may be
    missing: questions can be deleted.) *)
Theorem answers_and_requests_refer (s : MemStorage) :
  reachable s ->
  (forall a, In a (JsMap.values (answers s)) ->
             exists attempt,
               getExamAttempt (Answer.attemptId a) s = Some attempt /\
               ExamAttempt.id attempt = Answer.attemptId a) /\
  (forall r, In r (JsMap.values (gradingRequests s)) ->
             exists answer,
               getAnswer (GradingRequest.answerId r) s = Some answer /\
               Answer.id answer = GradingRequest.answerId r).
Proof.
  intros Hreach. destruct (reachable_refs s Hreach) as [HA HR].
  pose proof (reachable_ok s Hreach) as Hok. split.
  - intros a Ha. specialize (HA a Ha).
    destruct (getExamAttempt (Answer.attemptId a) s) as [attempt|] eqn:E;
      [|congruence].
    exists attempt. split; auto.
    eapply keyed_get_id; [apply Hok | exact E].
  - intros r Hr. specialize (HR r Hr).
    destruct (getAnswer (GradingRequest.answerId r) s) as [answer|] eqn:E;
      [|congruence].
    exists answer. split; auto.
    eapply keyed_get_id; [apply Hok | exact E].
Qed.

(** ** The score of a completed attempt *)

Lemma scores_of_same (id : Z) (s s' : MemStorage) :
  answers s' = answers s -> scores_of id s' = scores_of id s.
Proof. unfold scores_of. now intros ->. Qed.

Lemma scores_of_set_other (id k : Z) (new : Answer.t) (s s' : MemStorage) :
  answers s' = JsMap.set k new (answers s) ->
  Answer.attemptId new <> id ->
  (forall old, JsMap.get k (answers s) = Some old ->
               Answer.attemptId old <> id) ->
  scores_of id s' = scores_of id s.
Proof.
  unfold scores_of, JsMap.values. intros -> Hnew.
  assert (Hn : (Answer.attemptId new =? id) = false)
    by now apply Z.eqb_neq.
  generalize (answers s) as m.
  induction m as [|[k' v'] m IH]; cbn [JsMap.set JsMap.get map filter snd];
    intros Hold.
  - now rewrite Hn.
  - destruct (k =? k') eqn:E; cbn [map filter snd].
    + rewrite Hn. specialize (Hold v' eq_refl).
      apply Z.eqb_neq in Hold. now rewrite Hold.
    + destruct (Answer.attemptId v' =? id); cbn [map]; rewrite IH; auto.
Qed.

Lemma postAttempt_attempts (now : Z) (user : User.t) (examId : Z)
  (s : MemStorage) :
  snd (postAttempt now user examId s) = s \/
  (exists new,
      ExamAttempt.completedAt new = None /\
      examAttempts (snd (postAttempt now user examId s))
      = JsMap.set (attemptIdCounter s) new (examAttempts s)).
Proof.
  unfold postAttempt.
  destruct (getExam examId s); auto.
  destruct (negb _); auto.
  destruct (find _ _); auto.
  destruct (negb (insertExamAttemptSchema _)); auto.
  right. eexists. split; [|reflexivity]. reflexivity.
Qed.

Lemma putAttemptComplete_attempts (now : Z) (user : User.t) (attemptId : Z)
  (s : MemStorage) :
  snd (putAttemptComplete now user attemptId s) = s \/
  (exists new,
      ExamAttempt.score new = Some (js_total (scores_of attemptId s)) /\
      examAttempts (snd (putAttemptComplete now user attemptId s))
      = JsMap.set attemptId new (examAttempts s)).
Proof.
  unfold putAttemptComplete.
  destruct (getExamAttempt attemptId s) as [attempt|] eqn:Hget; auto.
  destruct (negb _); auto.
  destruct (ExamAttempt.completedAt attempt); auto.
  right. unfold updateExamAttempt. unfold getExamAttempt in Hget.
  rewrite Hget, attempt_score_total. eexists. split; [|reflexivity].
  reflexivity.
Qed.

Lemma regraded_by_completed (s s' : MemStorage) :
  completed_scores_ok s -> regraded_by s s' -> completed_scores_ok s'.
Proof.
  intros Hc (answer & new & attempt & Ga & Gt & Hat & Hid & Hnat & _ & EA & ET).
  intros id a Hget Hdone. unfold getExamAttempt in Hget. rewrite ET in Hget.
  destruct (Z.eq_dec (ExamAttempt.id attempt) id) as [<-|Hne].
  - rewrite get_set_eq in Hget. injection Hget as <-. reflexivity.
  - rewrite get_set_ne in Hget by assumption.
    rewrite (scores_of_set_other id _ new s s' EA).
    + now apply Hc.
    + congruence.
    + intros old Hold. congruence.
Qed.

Lemma handle_completed (r : Request) (s : MemStorage) :
  store_ok s -> ids_ok s -> completed_scores_ok s ->
  completed_scores_ok (handle r s).
Proof.
  intros Hok Hids Hc.
  assert (Hsame : forall s',
             answers s' = answers s -> examAttempts s' = examAttempts s ->
             completed_scores_ok s').
  { intros s' EA ET id a Hget Hdone. unfold getExamAttempt in Hget.
    rewrite ET in Hget. rewrite (scores_of_same id s s' EA). now apply Hc. }
  destruct (in_dec (fun x y : Collection =>
                      ltac:(decide equality) : {x = y} + {x <> y})
              Answers (footprint r)) as [HinA|HoutA];
    destruct (in_dec (fun x y : Collection =>
                        ltac:(decide equality) : {x = y} + {x <> y})
                Attempts (footprint r)) as [HinT|HoutT].
  - (* a grade *)
    destruct r; cbn in HinA, HinT; try (exfalso; intuition discriminate);
      cbn [handle].
    + destruct (putAnswerGrade_effect user answerId score isCorrect s Hok)
        as [->|H]; auto.
      eapply regraded_by_completed; eauto.
    + destruct (putGradingRequest_effect now user requestId status comment
                  score s Hok) as [[EA ET]|H]; auto.
      eapply regraded_by_completed; eauto.
  - (* a submission *)
    destruct (handle_unchanged r s Attempts HoutT) as [ET _].
    destruct r; cbn in HinA, HoutT; try (exfalso; intuition congruence).
    cbn [handle] in *.
    destruct (postAnswer_effect user attemptId questionId answer s Hok)
      as [E|(attempt & Hget & Hopen & EA)].
    { rewrite E. assumption. }
    intros id a Ha Hdone. unfold getExamAttempt in Ha. rewrite ET in Ha.
    rewrite (scores_of_set_other id _ _ s _ EA).
    + now apply Hc.
    + destruct (regrade_fields (getQuestion questionId s) answer
                  (submitted attemptId questionId answer s))
        as (_ & -> & _).
      destruct (submitted_fields attemptId questionId answer s) as [-> _].
      intros <-. unfold getExamAttempt in Hget. congruence.
    + intros old Hold Heq. subst id. unfold submitted in Hold.
      destruct (find _ _) as [existing|] eqn:Hfind; cbn [Answer.id] in Hold.
      * destruct (found_answer_stored _ _ _ _ Hok Hfind) as [Hst Hat].
        unfold getAnswer in Hst. rewrite Hst in Hold. injection Hold as <-.
        rewrite Hat in Ha. unfold getExamAttempt in Hget. congruence.
      * rewrite (sequential_fresh _ _ (ids_answers s Hids)) in Hold.
        discriminate.
  - (* starting or completing *)
    destruct (handle_unchanged r s Answers HoutA) as [EA _].
    destruct r; cbn in HinT, HoutA; try (exfalso; intuition congruence);
      cbn [handle] in *.
    + destruct (postAttempt_attempts now user examId s)
        as [->|(new & Hnew & ET)]; auto.
      intros id a Ha Hdone. unfold getExamAttempt in Ha. rewrite ET in Ha.
      rewrite (scores_of_same id s _ EA).
      destruct (Z.eq_dec (attemptIdCounter s) id) as [<-|Hne].
      * rewrite get_set_eq in Ha. injection Ha as <-. congruence.
      * rewrite get_set_ne in Ha by assumption. now apply Hc.
    + destruct (putAttemptComplete_attempts now user attemptId s)
        as [->|(new & Hnew & ET)]; auto.
      intros id a Ha Hdone. unfold getExamAttempt in Ha. rewrite ET in Ha.
      rewrite (scores_of_same id s _ EA).
      destruct (Z.eq_dec attemptId id) as [<-|Hne].
      * rewrite get_set_eq in Ha. injection Ha as <-. exact Hnew.
      * rewrite get_set_ne in Ha by assumption. now apply Hc.
  - destruct (handle_unchanged r s Answers HoutA) as [EA _].
    destruct (handle_unchanged r s Attempts HoutT) as [ET _].
    now apply Hsame.
Qed.

Lemma reachable_completed (s : MemStorage) :
  reachable s -> completed_scores_ok s.
Proof.
  induction 1 as [now|r s Hr IH].
  - intros id a H. discriminate.
  - apply handle_completed; auto using reachable_ok, reachable_ids.
Qed.


(** ** Users *)

Lemma postRegister_users (now : Z) (body : InsertUser.t) (s : MemStorage) :
  ids_ok s ->
  snd (postRegister now body s) = s \/
  (exists user,
      User.username user = InsertUser.username body /\
      User.email user = InsertUser.email body /\
      getUserByUsername (InsertUser.username body) s = None /\
      getUserByEmail (InsertUser.email body) s = None /\
      getUsers (snd (postRegister now body s)) = getUsers s ++ [user]).
Proof.
  intros Hids. unfold postRegister.
  destruct (getUserByUsername _ s) eqn:Hn; auto.
  destruct (getUserByEmail _ s) eqn:He; auto.
  right. unfold createUser, getUsers. cbn [snd users].
  rewrite set_append by (apply sequential_fresh; apply Hids).
  unfold JsMap.values. rewrite map_app. cbn [map snd].
  eexists. repeat split; reflexivity.
Qed.

Lemma find_none_not_in {A : Type} (f : A -> string) (name : string)
  (l : list A) :
  find (fun x => (f x =? name)%string) l = None -> ~ In name (map f l).
Proof.
  intros Hfind Hin. apply in_map_iff in Hin as (x & <- & Hx).
  apply (find_none _ _ Hfind) in Hx. cbn in Hx.
  rewrite String.eqb_refl in Hx. discriminate.
Qed.

Lemma NoDup_snoc {A : Type} (l : list A) (x : A) :
  NoDup l -> ~ In x l -> NoDup (l ++ [x]).
Proof.
  intros Hl Hx. apply NoDup_app; auto.
  - constructor; [tauto | constructor].
  - intros y Hy [<-|[]]. tauto.
Qed.

Lemma handle_users (r : Request) (s : MemStorage) :
  ids_ok s -> users_distinct s /\ admin_first s ->
  users_distinct (handle r s) /\ admin_first (handle r s).
Proof.
  intros Hids [[Hn He] [now0 Hadmin]].
  assert (Hframe : ~ In Users (footprint r) ->
                   users_distinct (handle r s) /\ admin_first (handle r s)).
  { intros Hc. destruct (handle_unchanged r s Users Hc) as [E _].
    unfold users_distinct, admin_first, getUsers. rewrite E.
    repeat split; eauto. }
  destruct r; try (apply Hframe; cbn; intuition discriminate).
  cbn [handle].
  destruct (postRegister_users now body s Hids)
    as [->|(user & Eu & Ee & Fu & Fe & E)].
  { split; [split; assumption | exists now0; exact Hadmin]. }
  unfold users_distinct, admin_first. rewrite E, !map_app. cbn [map].
  repeat split.
  - apply NoDup_snoc; auto. rewrite Eu.
    now apply find_none_not_in.
  - apply NoDup_snoc; auto. rewrite Ee.
    now apply find_none_not_in.
  - exists now0. destruct (getUsers s); [discriminate | exact Hadmin].
Qed.

Lemma reachable_users (s : MemStorage) :
  reachable s -> users_distinct s /\ admin_first s.
Proof.
  induction 1 as [now|r s Hr IH].
  - repeat split; cbn; try (constructor; [tauto | constructor]).
    exists now. reflexivity.
  - apply handle_users; auto using reachable_ids.
Qed.

Lemma NoDup_map_same {A B : Type} (f : A -> B) (l : list A) (u v : A) :
  NoDup (map f l) -> In u l -> In v l -> f u = f v -> u = v.
Proof.
  induction l as [|x l IH]; cbn; [tauto|].
  intros Hnd Hu Hv Hf. inversion Hnd as [|? ? Hx Hl]; subst.
  destruct Hu as [->|Hu], Hv as [->|Hv]; auto.
  - exfalso. apply Hx. rewrite Hf. now apply in_map.
  - exfalso. apply Hx. rewrite <- Hf. now apply in_map.
Qed.


(** In every reachable store the middleware finds a user, so it creates
    none: whatever the request, [req.user] is the first user of the store,
    which is the one the constructor made (id 1, name admin, a teacher),
    and the store is left as it is. *)
Theorem isAuthenticated_is_the_admin (s : MemStorage) :
  reachable s ->
  exists created,
    forall now, isAuthenticated now s = (adminUser created, s).
Proof.
  intros Hreach. destruct (reachable_users s Hreach) as [_ [now0 Hadmin]].
  exists now0. intros now. unfold isAuthenticated.
  destruct (getUsers s) as [|u l]; [discriminate|].
  cbn in Hadmin. now injection Hadmin as ->.
Qed.

(** ** The invariants on the worked sessions *)

Lemma quiz_store_reachable : reachable quiz_store.
Proof. apply reachable_run. constructor. Qed.

Lemma resubmitted_store_reachable : reachable resubmitted_store.
Proof. apply reachable_handle. exact quiz_store_reachable. Qed.

Lemma completed_store_reachable : reachable completed_store.
Proof. apply reachable_handle. exact session_store_reachable. Qed.

(** After the re-submission the quiz still has its four answers, and the
    two entries found for the second question are one. *)
Lemma one_answer_per_question_witness :
  List.length (getAnswersByAttempt 1 resubmitted_store) = 4%nat /\
  Answer.mk 2 1 2 "b" (Some true) (Some 4) false
  = Answer.mk 2 1 2 "b" (Some true) (Some 4) false.
Proof.
  split; [vm_compute; reflexivity|].
  apply (one_answer_per_question resubmitted_store).
  - exact resubmitted_store_reachable.
  - vm_compute. right. left. reflexivity.
  - vm_compute. right. left. reflexivity.
  - reflexivity.
  - reflexivity.
Defined.

(** The answer of the session belongs to attempt 1 and the request to
    answer 1. *)
Lemma answers_and_requests_refer_witness :
  (exists attempt,
      getExamAttempt 1 session_store = Some attempt /\
      ExamAttempt.id attempt = 1) /\
  (exists answer,
      getAnswer 1 session_store = Some answer /\ Answer.id answer = 1).
Proof.
  destruct (answers_and_requests_refer session_store
              session_store_reachable) as [HA HR].
  split.
  - apply (HA session_answer). vm_compute. left. reflexivity.
  - apply (HR (GradingRequest.mk 1 1 2000 "pending" None None)).
    vm_compute. left. reflexivity.
Defined.



(** In the session every request runs as the constructor's user. *)
Lemma isAuthenticated_is_the_admin_witness :
  exists created,
    forall now, isAuthenticated now session_store
                = (adminUser created, session_store).
Proof.
  exact (isAuthenticated_is_the_admin session_store session_store_reachable).
Defined.

(** In every reachable store the ids are in sequence: every user, exam,
    question, attempt, answer and grading request is stored under an id
    that is at least 1 and below the counter of its collection, so the next
    record never takes the place of a stored one; users, attempts, answers
    and requests carry that id in their [id] field. *)
Theorem ids_in_sequence (s : MemStorage) :
  reachable s ->
  (forall id x, getUser id s = Some x ->
                1 <= id < userIdCounter s /\ User.id x = id) /\
  (forall id x, getExam id s = Some x -> 1 <= id < examIdCounter s) /\
  (forall id x, getQuestion id s = Some x ->
                1 <= id < questionIdCounter s) /\
  (forall id x, getExamAttempt id s = Some x ->
                1 <= id < attemptIdCounter s /\ ExamAttempt.id x = id) /\
  (forall id x, getAnswer id s = Some x ->
                1 <= id < answerIdCounter s /\ Answer.id x = id) /\
  (forall id x, getGradingRequest id s = Some x ->
                1 <= id < requestIdCounter s /\ GradingRequest.id x = id).
Proof.
  intros Hreach. pose proof (reachable_ids s Hreach) as Hids.
  pose proof (reachable_ok s Hreach) as Hok.
  destruct Hids as [Hu He Hq Ht Ha Hr Hku Hkr].
  split; [|split; [|split; [|split; [|split]]]]; intros id x H.
  - split; [exact (sequential_range _ _ _ _ Hu H)|].
    exact (keyed_get_id _ _ _ _ Hku H).
  - exact (sequential_range _ _ _ _ He H).
  - exact (sequential_range _ _ _ _ Hq H).
  - split; [exact (sequential_range _ _ _ _ Ht H)|].
    exact (keyed_get_id _ _ _ _ (ok_attempts s Hok) H).
  - split; [exact (sequential_range _ _ _ _ Ha H)|].
    exact (keyed_get_id _ _ _ _ (ok_answers s Hok) H).
  - split; [exact (sequential_range _ _ _ _ Hr H)|].
    exact (keyed_get_id _ _ _ _ Hkr H).
Qed.

(** The ids of the session. *)
Lemma ids_in_sequence_witness :
  1 <= 1 < attemptIdCounter session_store /\
  ExamAttempt.id session_attempt = 1.
Proof.
  destruct (ids_in_sequence session_store session_store_reachable)
    as (_ & _ & _ & Ht & _).
  exact (Ht 1 session_attempt session_store_attempt).
Defined.

(** Users, attempts, answers and grading requests are never lost: after
    any sequence of requests on a reachable store, every user is stored as
    it was, and every attempt, answer and request is still stored under its
    id, for the same exam and user, attempt and question, and answer. *)
Theorem records_are_kept (rs : list Request) (s : MemStorage) :
  reachable s -> persists s (run rs s).
Proof.
  intros Hreach. apply run_chain. now apply reachable_ids.
Qed.

(** The answer of the session after more requests. *)
Lemma records_are_kept_witness :
  exists a',
    getAnswer 1 (run later session_store) = Some a' /\
    Answer.attemptId a' = 1 /\ Answer.questionId a' = 1.
Proof.
  destruct (records_are_kept later session_store session_store_reachable)
    as (_ & _ & HA & _).
  exact (HA 1 session_answer session_store_answer).
Defined.

(** The bound on the scores in the session, after a re-submission, a
    manual grade of 3 and an approval with a score of 2. *)
Lemma score_bounds_run_witness :
  score_bounds
    (run [PostAnswer teacher 1 1 "3"; PutAnswerGrade teacher 1 (Some 3) true;
          PutGradingRequest 3000 teacher 1 "approved" None (Some 2)]
       session_store).
Proof.
  apply score_bounds_run.
  - apply reachable_ok. exact session_store_reachable.
  - intros k q H. unfold getQuestion in H.
    assert (E : questions session_store
                = [(1, Question.mk 1 1 "multiple_choice" "2 + 2 = ?" 5 1
                         (JArray ["3"; "4"]) (JString "2"));
                   (2, Question.mk 2 1 "essay" "Why?" 2 2 JNull JNull)])
      by (vm_compute; reflexivity).
    rewrite E in H. cbn [JsMap.get] in H.
    destruct (k =? 1); [injection H as <-; cbn [Question.points]; lia|].
    destruct (k =? 2);
      [injection H as <-; cbn [Question.points]; lia|discriminate H].
  - intros a q Hin H.
    assert (E : JsMap.values (answers session_store) = [session_answer])
      by (vm_compute; reflexivity).
    rewrite E in Hin. destruct Hin as [<-|[]].
    assert (E1 : getQuestion (Answer.questionId session_answer) session_store
                 = Some (Question.mk 1 1 "multiple_choice" "2 + 2 = ?" 5 1
                           (JArray ["3"; "4"]) (JString "2")))
      by (vm_compute; reflexivity).
    rewrite E1 in H. injection H as <-. cbn. lia.
  - repeat constructor. cbn. lia.
Defined.

(** The late failure in the session: the score 7 is refused, and the
    request is no longer the pending one. *)
Lemma putGradingRequest_failure_witness :
  exists s',
    putGradingRequest 3000 teacher 1 "approved" None (Some 7) session_store
    = (Failed 400 "Score cannot exceed question points", s') /\
    getGradingRequest 1 s' <> getGradingRequest 1 session_store /\
    answers s' = answers session_store.
Proof.
  exists (snd (putGradingRequest 3000 teacher 1 "approved" None (Some 7)
                 session_store)).
  assert (Hput : putGradingRequest 3000 teacher 1 "approved" None (Some 7)
                   session_store
                 = (Failed 400 "Score cannot exceed question points",
                    snd (putGradingRequest 3000 teacher 1 "approved" None
                           (Some 7) session_store)))
    by (vm_compute; reflexivity).
  split; [exact Hput|].
  destruct (putGradingRequest_failure 3000 teacher 1 "approved" None (Some 7)
              session_store _ 400 "Score cannot exceed question points" Hput)
    as [E|(request & _ & _ & _ & E)].
  - exfalso.
    apply (f_equal (fun st => getGradingRequest 1 st)) in E.
    vm_compute in E. discriminate E.
  - split; [vm_compute; discriminate|]. rewrite E.
    vm_compute. reflexivity.
Defined.
